(** * Quantum News Hub: the article ingestion and summarization pipeline

    A shallow embedding of [news_agent/enhanced_rss_parser.py]
    (class [QuantumRSSParser]) and [news_agent/enhanced_agent.py]
    (class [QuantumNewsAgent]).

    The Python code threads two pieces of mutable state through every call:
    the SQLite table [quantum_news_rss] and the log written by [logging].
    Both live in a [World]; every method is a computation in the monad
    [M A = World -> result A * World], which also carries Python exceptions,
    so that [try ... except] blocks are modelled as they are written.  The
    collaborators (feedparser, newspaper, the ADK runner, the clocks) are
    the fields of an environment [Env]. *)

From Stdlib Require Import String Ascii List ZArith Bool Lia DecimalString.
Import ListNotations.
Open Scope string_scope.
Open Scope Z_scope.

(** ** Python values *)

Module Py.

(** Truthiness of a [str]: only the empty string is falsy. *)
Definition truthy (s : string) : bool := negb (String.eqb s "").

(** [s or d] on strings. *)
Definition or_else (s d : string) : string := if truthy s then s else d.

(** Truthiness of [Optional[str]]: [None] and [''] are falsy. *)
Definition truthy_opt (o : option string) : bool :=
  match o with
  | Some s => truthy s
  | None => false
  end.

(** [d.get(key, default)] for a key that may be missing. *)
Definition get (o : option string) (default : string) : string :=
  match o with
  | Some v => v
  | None => default
  end.

(** A [str] is a sequence of code points; it is modelled by its UTF-8
    encoding, one [ascii] for each byte.  A byte of the form [10xxxxxx]
    continues a character, any other byte begins one. *)
Definition continuation (c : ascii) : bool :=
  match c with
  | Ascii _ _ _ _ _ _ b6 b7 => b7 && negb b6
  end.

(** The number of characters (code points) of a string. *)
Fixpoint characters (s : string) : nat :=
  match s with
  | EmptyString => O
  | String c rest =>
      if continuation c then characters rest else S (characters rest)
  end.

(** The string is empty or starts at the first byte of a character. *)
Definition boundary (s : string) : bool :=
  match s with
  | EmptyString => true
  | String c _ => negb (continuation c)
  end.

(** The first [n] characters of a string, with all their bytes. *)
Fixpoint first_characters (n : nat) (s : string) : string :=
  match s with
  | EmptyString => EmptyString
  | String c rest =>
      if continuation c then String c (first_characters n rest)
      else
        match n with
        | O => EmptyString
        | S n' => String c (first_characters n' rest)
        end
  end.

(** [len(s)]: the number of code points. *)
Definition len (s : string) : Z := Z.of_nat (characters s).

(** [s[:n]] for a non-negative [n]: the first [n] code points. *)
Definition slice_to (s : string) (n : Z) : string :=
  first_characters (Z.to_nat n) s.

(** [sep.join(xs)]. *)
Fixpoint join (sep : string) (xs : list string) : string :=
  match xs with
  | [] => ""
  | [x] => x
  | x :: rest => x ++ sep ++ join sep rest
  end.

(** [str(n)] for an [int]. *)
Definition str_of_int (n : Z) : string := NilZero.string_of_int (Z.to_int n).

(** Exceptions.  Every exception of the model derives from [Exception];
    [sqlite3.IntegrityError] is told apart because [save_article] has a
    handler of its own for it.  The payload is [str(e)]. *)
Inductive exn : Type :=
| IntegrityError (msg : string)
| TypeError (msg : string)
| Exception (msg : string).

Definition str_of_exn (e : exn) : string :=
  match e with
  | IntegrityError m | TypeError m | Exception m => m
  end.

Inductive result (A : Type) : Type :=
| Ok (a : A)
| Raise (e : exn).
Arguments Ok {A} a.
Arguments Raise {A} e.

End Py.
Import Py.

(** ** The table [quantum_news_rss] *)

Definition timestamp := string.

(** One row; the nullable columns are options. *)
Record Row : Type := mkRow {
  id : Z;
  title : string;
  author : option string;
  publish_date : option string;
  article_link : string;
  content : option string;
  ai_summary : option string;
  created_at : timestamp;
  updated_at : timestamp
}.

(** The table in rowid order, and the counter kept for AUTOINCREMENT. *)
Record DB : Type := mkDB {
  rows : list Row;
  seq : Z
}.

(** [INTEGER PRIMARY KEY AUTOINCREMENT]: one more than the largest rowid
    ever used; the first is 1. *)
Definition next_rowid (d : DB) : Z :=
  1 + fold_right Z.max (Z.max 0 (seq d)) (map id (rows d)).

(** ** Log and collaborator calls *)

Inductive LogLevel : Type := INFO | WARNING | ERROR.

Inductive Event : Type :=
| Log (lvl : LogLevel) (msg : string)
| FeedParse (url : string)      (* feedparser.parse(url) *)
| Download (url : string)       (* Article(url).download(); .parse() *)
| RunAsync (prompt : string).   (* runner.run_async(new_message=prompt) *)

Record World : Type := mkWorld {
  db : DB;
  trace : list Event    (* oldest first *)
}.

(** ** The monad of the methods *)

Definition M (A : Type) : Type := World -> result A * World.

Definition ret {A} (a : A) : M A := fun w => (Ok a, w).

Definition bind {A B} (c : M A) (k : A -> M B) : M B :=
  fun w =>
    match c w with
    | (Ok a, w') => k a w'
    | (Raise e, w') => (Raise e, w')
    end.

Definition raise {A} (e : exn) : M A := fun w => (Raise e, w).

(** [try: body except Exception as e: handler(e)]. *)
Definition try_except {A} (body : M A) (handler : exn -> M A) : M A :=
  fun w =>
    match body w with
    | (Ok a, w') => (Ok a, w')
    | (Raise e, w') => handler e w'
    end.

(** Lifting of a collaborator's answer. *)
Definition lift {A} (r : result A) : M A := fun w => (r, w).

Declare Scope monad_scope.
Delimit Scope monad_scope with monad.
Notation "x <- c ;; k" := (bind c (fun x => k))
  (at level 61, c at next level, right associativity) : monad_scope.
Notation "c ;; k" := (bind c (fun _ => k))
  (at level 61, right associativity) : monad_scope.
Open Scope monad_scope.

Definition emit (e : Event) : M unit :=
  fun w => (Ok tt, mkWorld (db w) (trace w ++ [e])).

Definition logging_info (msg : string) : M unit := emit (Log INFO msg).
Definition logging_warning (msg : string) : M unit := emit (Log WARNING msg).
Definition logging_error (msg : string) : M unit := emit (Log ERROR msg).

Definition read_db : M DB := fun w => (Ok (db w), w).
Definition write_db (d : DB) : M unit := fun w => (Ok tt, mkWorld d (trace w)).

(** ** Collaborators *)

(** A feed entry: a dict whose keys may be missing. *)
Record Entry : Type := mkEntry {
  e_link : option string;
  e_title : option string;
  e_author : option string;
  e_published : option string
}.

Record Feed : Type := mkFeed {
  bozo : bool;
  entries : list Entry
}.

(** What newspaper's [Article] holds after [download(); parse()];
    [p_publish_date] is the date already formatted by
    [strftime('%Y-%m-%d')], when there is one. *)
Record Page : Type := mkPage {
  p_title : string;
  p_text : string;
  p_authors : list string;
  p_publish_date : option string
}.

(** An event of the ADK runner: [content] is [None] or holds the parts
    (each with an optional text), [actions.escalate] is read through
    [event.actions and event.actions.escalate]. *)
Record AgentEvent : Type := mkAgentEvent {
  is_final_response : bool;
  ev_content : option (list (option string));
  ev_escalate : bool;
  error_message : option string
}.

Record Env : Type := mkEnv {
  feedparser_parse : string -> result Feed;
  newspaper_article : string -> result Page;
  date_today : string;
  current_timestamp : timestamp;
  (** the bootstrap of the session, which may raise *)
  create_session : result unit;
  (** the events the runner yields, and the exception that ends the
      stream when there is one *)
  run_async : string -> list AgentEvent * option exn
}.

(** ** [QuantumRSSParser] (enhanced_rss_parser.py) *)

Module QuantumRSSParser.

Definition rss_url : string :=
  "https://news.mit.edu/topic/mitquantum-computing-rss.xml".

(** The dict returned by [extract_article_content]. *)
Record ArticleData : Type := mkArticleData {
  d_title : string;
  d_content : string;
  d_authors : string;
  d_publish_date : string
}.

(** The dict returned by [fetch_latest_article]. *)
Record NewArticle : Type := mkNewArticle {
  a_id : Z;
  a_title : string;
  a_author : string;
  a_publish_date : string;
  a_link : string;
  a_content : string
}.

Definition extract_article_content (E : Env) (url : string)
  : M (option ArticleData) :=
  try_except
    (emit (Download url) ;;
     article <- lift (newspaper_article E url) ;;
     ret (Some {|
       d_title := or_else (p_title article) "No Title";
       d_content := or_else (p_text article) "No Content";
       d_authors :=
         match p_authors article with
         | [] => "Unknown Author"
         | _ :: _ => join ", " (p_authors article)
         end;
       d_publish_date :=
         match p_publish_date article with
         | Some d => d
         | None => date_today E
         end |}))
    (fun e =>
       logging_error
         ("Error extracting content from " ++ url ++ ": " ++ str_of_exn e) ;;
       ret None).

(** [SELECT id ... WHERE article_link = ?] finds a row. *)
Definition has_link (d : DB) (link : string) : bool :=
  existsb (fun r => String.eqb (article_link r) link) (rows d).

Definition article_exists (link : string) : M bool :=
  d <- read_db ;;
  ret (has_link d link).

(** The [INSERT] of [save_article] with its [commit]: the UNIQUE
    constraint on [article_link] raises and leaves the table as it was;
    [ai_summary] is NULL and both timestamps take their default. *)
Definition insert_row (E : Env)
    (title author publish_date link content : string) : M Z :=
  d <- read_db ;;
  if has_link d link
  then raise (IntegrityError
                "UNIQUE constraint failed: quantum_news_rss.article_link")
  else
    let article_id := next_rowid d in
    write_db (mkDB
      (rows d ++ [mkRow article_id title (Some author) (Some publish_date)
                    link (Some content) None
                    (current_timestamp E) (current_timestamp E)])
      article_id) ;;
    ret article_id.

Definition save_article (E : Env)
    (title author publish_date link content : string) : M (option Z) :=
  try_except
    (article_id <- insert_row E title author publish_date link content ;;
     logging_info ("Article saved with ID: " ++ str_of_int article_id) ;;
     ret (Some article_id))
    (fun e =>
       match e with
       | IntegrityError _ =>
           logging_warning ("Article already exists: " ++ link) ;;
           ret None
       | _ =>
           logging_error ("Error saving article: " ++ str_of_exn e) ;;
           ret None
       end).

Definition fetch_latest_article (E : Env) : M (option NewArticle) :=
  try_except
    (emit (FeedParse rss_url) ;;
     feed <- lift (feedparser_parse E rss_url) ;;
     if bozo feed then
       logging_error "Failed to parse RSS feed" ;;
       ret None
     else
       match entries feed with
       | [] =>
           logging_info "No entries found in RSS feed" ;;
           ret None
       | latest_entry :: _ =>
           let article_link := get (e_link latest_entry) "" in
           exists_ <- article_exists article_link ;;
           if (exists_ : bool) then
             logging_info ("Article already exists: " ++ article_link) ;;
             ret None
           else
             article_data <- extract_article_content E article_link ;;
             match article_data with
             | None =>
                 logging_error
                   ("Failed to extract content from: " ++ article_link) ;;
                 ret None
             | Some article_data =>
                 let title := get (e_title latest_entry) (d_title article_data) in
                 let author := get (e_author latest_entry) (d_authors article_data) in
                 let publish_date :=
                   get (e_published latest_entry) (d_publish_date article_data) in
                 let content := d_content article_data in
                 article_id <-
                   save_article E title author publish_date article_link content ;;
                 match article_id with
                 | Some i =>
                     if i =? 0 then ret None
                     else
                       logging_info
                         ("Successfully processed new article: " ++ title) ;;
                       ret (Some (mkNewArticle i title author publish_date
                                    article_link content))
                 | None => ret None
                 end
             end
       end)
    (fun e =>
       logging_error ("Error fetching RSS feed: " ++ str_of_exn e) ;;
       ret None).

(** [WHERE ai_summary IS NULL OR ai_summary = '']. *)
Definition without_summary (r : Row) : bool :=
  match ai_summary r with
  | None => true
  | Some s => String.eqb s ""
  end.

(** The tuples [(id, title, content, article_link)] of the pending rows. *)
Definition get_articles_without_summary
  : M (list (Z * string * option string * string)) :=
  d <- read_db ;;
  ret (map (fun r => (id r, title r, content r, article_link r))
           (filter without_summary (rows d))).

(** [UPDATE ... SET ai_summary = ?, updated_at = CURRENT_TIMESTAMP
    WHERE id = ?]. *)
Definition set_summary (E : Env) (summary : string) (r : Row) : Row :=
  mkRow (id r) (title r) (author r) (publish_date r) (article_link r)
        (content r) (Some summary) (created_at r) (current_timestamp E).

Definition update_rows (E : Env) (article_id : Z) (summary : string) : M unit :=
  d <- read_db ;;
  write_db (mkDB
    (map (fun r => if id r =? article_id then set_summary E summary r else r)
         (rows d))
    (seq d)).

Definition update_article_summary (E : Env) (article_id : Z) (summary : string)
  : M bool :=
  try_except
    (update_rows E article_id summary ;;
     logging_info ("Summary updated for article ID: " ++ str_of_int article_id) ;;
     ret true)
    (fun e =>
       logging_error ("Error updating summary: " ++ str_of_exn e) ;;
       ret false).

End QuantumRSSParser.

(** ** [QuantumNewsAgent] (enhanced_agent.py) *)

Module QuantumNewsAgent.
Import QuantumRSSParser.

Definition max_content_length : Z := 8000.

(** The f-string sent to the runner. *)
Definition make_prompt (content : string) : string :=
  "
            Please summarize the following quantum computing article in exactly 250 words.
            Make the summary engaging and accessible to general readers while preserving the key technical concepts.
            Use plain English and avoid jargon where possible.

            Article content:
            " ++ content ++ "
            ".

(** The [async for] over the runner's events: the first final event that
    has parts returns the text of its first part, the first final event
    without parts that escalates returns [None]; any other event is
    passed over.  A stream that ends raises its exception, if it has
    one, and otherwise falls out of the loop. *)
Fixpoint consume_events (events : list AgentEvent) (end_exn : option exn)
  : M (option string) :=
  match events with
  | [] =>
      match end_exn with
      | Some e => raise e
      | None => ret None
      end
  | event :: rest =>
      if is_final_response event then
        match ev_content event with
        | Some (part :: _) =>
            logging_info "Summary generated successfully" ;;
            ret part
        | _ =>
            if ev_escalate event then
              let error_msg :=
                "Agent escalated: " ++
                or_else (get (error_message event) "") "No specific message." in
              logging_error error_msg ;;
              ret None
            else consume_events rest end_exn
        end
      else consume_events rest end_exn
  end.

(** [content] is a Python value: a [str], or [None] when it comes from a
    row whose [content] column is NULL. *)
Definition summarize_article_content (E : Env) (content : option string)
  : M (option string) :=
  try_except
    (lift (create_session E) ;;
     content <-
       match content with
       | None => raise (TypeError "object of type 'NoneType' has no len()")
       | Some content =>
           if len content >? max_content_length then
             logging_info "Content truncated due to length" ;;
             ret (slice_to content max_content_length ++ "...")
           else ret content
       end ;;
     let prompt := make_prompt content in
     logging_info "Generating AI summary..." ;;
     emit (RunAsync prompt) ;;
     consume_events (fst (run_async E prompt)) (snd (run_async E prompt)))
    (fun e =>
       logging_error ("Error generating summary: " ++ str_of_exn e) ;;
       ret None).

(** The dict returned by [process_new_articles]. *)
Inductive IngestResult : Type :=
| Success (article : NewArticle) (summary : string)
| Error (message : string)
| NoNewArticles.

Definition status (r : IngestResult) : string :=
  match r with
  | Success _ _ => "success"
  | Error _ => "error"
  | NoNewArticles => "no_new_articles"
  end.

Definition message (r : IngestResult) : option string :=
  match r with
  | Error m => Some m
  | _ => None
  end.

Definition process_new_articles (E : Env) : M IngestResult :=
  try_except
    (new_article <- fetch_latest_article E ;;
     match new_article with
     | Some new_article =>
         logging_info ("Processing new article: " ++ a_title new_article) ;;
         summary <- summarize_article_content E (Some (a_content new_article)) ;;
         if truthy_opt summary then
           success <-
             update_article_summary E (a_id new_article) (get summary "") ;;
           if (success : bool) then
             logging_info "Article processed and summary saved successfully" ;;
             ret (Success new_article (get summary ""))
           else
             logging_error "Failed to save summary to database" ;;
             ret (Error "Failed to save summary")
         else
           logging_error "Failed to generate summary" ;;
           ret (Error "Failed to generate summary")
     | None =>
         logging_info "No new articles to process" ;;
         ret NoNewArticles
     end)
    (fun e =>
       logging_error ("Error processing articles: " ++ str_of_exn e) ;;
       ret (Error (str_of_exn e))).

(** The dict returned by [process_existing_articles_without_summary]. *)
Inductive BacklogResult : Type :=
| Processed (processed_count total_articles : Z)
| BacklogError (processed_count : Z) (error : string).

(** One turn of the [for] loop; the value is the new [processed_count]. *)
Definition process_one (E : Env) (processed_count : Z)
    (article : Z * string * option string * string) : M Z :=
  let '(article_id, title, content, _) := article in
  logging_info ("Processing existing article: " ++ title) ;;
  summary <- summarize_article_content E content ;;
  if truthy_opt summary then
    success <- update_article_summary E article_id (get summary "") ;;
    if (success : bool) then
      logging_info ("Summary generated for: " ++ title) ;;
      ret (processed_count + 1)
    else
      logging_error ("Failed to save summary for: " ++ title) ;;
      ret processed_count
  else
    logging_error ("Failed to generate summary for: " ++ title) ;;
    ret processed_count.

Fixpoint process_all (E : Env) (processed_count : Z)
    (articles : list (Z * string * option string * string)) : M Z :=
  match articles with
  | [] => ret processed_count
  | article :: rest =>
      processed_count <- process_one E processed_count article ;;
      process_all E processed_count rest
  end.

Definition process_existing_articles_without_summary (E : Env)
  : M BacklogResult :=
  try_except
    (articles <- get_articles_without_summary ;;
     processed_count <- process_all E 0 articles ;;
     ret (Processed processed_count (Z.of_nat (length articles))))
    (fun e =>
       logging_error ("Error processing existing articles: " ++ str_of_exn e) ;;
       ret (BacklogError 0 (str_of_exn e))).

End QuantumNewsAgent.

(** ** [DailyNewsProcessor] (daily_runner.py) *)

Module DailyNewsProcessor.
Import QuantumRSSParser QuantumNewsAgent.

(** The readings of [datetime.now()] during one run, already formatted:
    [duration] is [end_time - start_time], [failure_duration] the
    difference computed in the [except] branch. *)
Record Clock : Type := mkClock {
  start_time : string;
  end_time : string;
  duration : string;
  failure_duration : string;
  completed_at : string
}.

(** The dict returned by [run_daily_process]. *)
Inductive DailyReport : Type :=
| DailySuccess (new_articles : IngestResult) (backlog_processing : BacklogResult)
               (duration summary : string)
| DailyError (error duration : string).

Definition daily_status (r : DailyReport) : string :=
  match r with
  | DailySuccess _ _ _ _ => "success"
  | DailyError _ _ => "error"
  end.

Definition newline : string := String (ascii_of_nat 10) "".

(** ["=" * 60]. *)
Definition rule : string :=
  "============================================================".

Definition generate_daily_summary (C : Clock)
    (new_article_result : IngestResult) (backlog_result : BacklogResult)
    (duration : string) : string :=
  let new_parts :=
    match new_article_result with
    | Success article summary =>
        ["🆕 NEW ARTICLE PROCESSED:";
         "   Title: " ++ a_title article;
         "   Author: " ++ a_author article;
         "   Publish Date: " ++ a_publish_date article;
         "   Link: " ++ a_link article;
         "   AI Summary Generated: ✅ (" ++ str_of_int (len summary) ++ " chars)"]
    | NoNewArticles =>
        ["🔄 NO NEW ARTICLES: RSS feed had no new articles to process"]
    | Error message => ["❌ NEW ARTICLE ERROR: " ++ message]
    end in
  let backlog_parts :=
    match backlog_result with
    | Processed processed total =>
        if processed >? 0 then
          ["📚 BACKLOG PROCESSING: " ++ str_of_int processed ++ "/" ++
           str_of_int total ++ " articles summarized"]
        else ["📚 BACKLOG: No articles requiring summary processing"]
    | BacklogError _ error => ["❌ BACKLOG ERROR: " ++ error]
    end in
  let time_parts :=
    ["⏱️  PROCESSING TIME: " ++ duration;
     "🕐 COMPLETED AT: " ++ completed_at C] in
  join newline (new_parts ++ backlog_parts ++ time_parts)%list.

Definition run_daily_process (E : Env) (C : Clock) : M DailyReport :=
  logging_info rule ;;
  logging_info ("Starting daily quantum news processing at " ++ start_time C) ;;
  logging_info rule ;;
  try_except
    (logging_info "Step 1: Processing new articles from RSS feed..." ;;
     new_article_result <- process_new_articles E ;;
     match new_article_result with
     | Success article summary =>
         logging_info ("✅ New article processed: " ++ a_title article) ;;
         logging_info ("   Summary length: " ++ str_of_int (len summary) ++
                       " characters")
     | NoNewArticles => logging_info "ℹ️  No new articles found in RSS feed"
     | Error message =>
         logging_error ("❌ Failed to process new articles: " ++ message)
     end ;;
     logging_info "Step 2: Processing existing articles without summaries..." ;;
     backlog_result <- process_existing_articles_without_summary E ;;
     match backlog_result with
     | BacklogError _ error =>
         logging_error ("❌ Error processing backlog: " ++ error)
     | Processed processed total =>
         if processed >? 0 then
           logging_info ("✅ Processed " ++ str_of_int processed ++ " out of " ++
                         str_of_int total ++ " articles from backlog")
         else logging_info "ℹ️  No articles in backlog requiring processing"
     end ;;
     logging_info "Step 3: Generating daily summary..." ;;
     let summary :=
       generate_daily_summary C new_article_result backlog_result (duration C) in
     logging_info rule ;;
     logging_info "DAILY PROCESSING SUMMARY" ;;
     logging_info rule ;;
     logging_info summary ;;
     logging_info rule ;;
     logging_info ("Daily processing completed at " ++ end_time C) ;;
     logging_info ("Total processing time: " ++ duration C) ;;
     logging_info rule ;;
     ret (DailySuccess new_article_result backlog_result (duration C) summary))
    (fun e =>
       logging_error ("❌ Critical error in daily processing: " ++ str_of_exn e) ;;
       logging_error "Full error traceback:" ;;
       ret (DailyError (str_of_exn e) (failure_duration C))).

End DailyNewsProcessor.

(** ** [QuantumNewsDB] (enhanced_app.py) *)

Module QuantumNewsDB.

(** [WHERE ai_summary IS NOT NULL AND ai_summary != '']. *)
Definition with_summary (r : Row) : bool :=
  match ai_summary r with
  | Some s => negb (String.eqb s "")
  | None => false
  end.

(** [ORDER BY created_at DESC], on TEXT values compared byte by byte.  SQL
    leaves the order of rows with equal keys open; here they stay in rowid
    order. *)
Fixpoint insert_desc (r : Row) (sorted : list Row) : list Row :=
  match sorted with
  | [] => [r]
  | x :: rest =>
      if String.leb (created_at r) (created_at x)
      then x :: insert_desc r rest
      else r :: sorted
  end.

Definition order_by_created_at_desc (l : list Row) : list Row :=
  fold_left (fun sorted r => insert_desc r sorted) l [].

(** [LIMIT ?]: a negative limit is no limit. *)
Definition limit_rows (limit : Z) (l : list Row) : list Row :=
  if limit <? 0 then l else firstn (Z.to_nat limit) l.

(** The dict built for one article. *)
Record ArticleView : Type := mkArticleView {
  v_id : Z;
  v_title : string;
  v_author : string;
  v_publish_date : option string;
  v_link : string;
  v_summary : option string;
  v_created_at : timestamp
}.

Definition format_article (r : Row) : ArticleView :=
  mkArticleView (id r) (title r)
                (if truthy_opt (author r) then get (author r) "" else "Unknown Author")
                (publish_date r) (article_link r) (ai_summary r) (created_at r).

Definition get_all_articles (limit : Z) : M (list ArticleView) :=
  d <- read_db ;;
  ret (map format_article
           (limit_rows limit
              (order_by_created_at_desc (filter with_summary (rows d))))).

(** The dict returned by [get_article_stats]. *)
Record Stats : Type := mkStats {
  total_articles : Z;
  articles_with_summary : Z;
  articles_without_summary : Z;
  last_updated : option timestamp
}.

(** [SELECT MAX(created_at)]: NULL on an empty table. *)
Definition later (acc : option timestamp) (r : Row) : option timestamp :=
  match acc with
  | None => Some (created_at r)
  | Some m => if String.leb m (created_at r) then Some (created_at r) else Some m
  end.

Definition max_created_at (l : list Row) : option timestamp :=
  fold_left later l None.

Definition get_article_stats : M Stats :=
  d <- read_db ;;
  let total_articles := Z.of_nat (length (rows d)) in
  let articles_with_summary := Z.of_nat (length (filter with_summary (rows d))) in
  let articles_without_summary := total_articles - articles_with_summary in
  ret (mkStats total_articles articles_with_summary articles_without_summary
               (max_created_at (rows d))).

End QuantumNewsDB.

(** ** [OntologyVisualizer.normalize_name_for_id] (enhanced_app.py) *)

Module OntologyVisualizer.

(** [s.replace(old, new)] for an [old] of one character. *)
Fixpoint replace_char (old : ascii) (new : string) (s : string) : string :=
  match s with
  | EmptyString => EmptyString
  | String c rest =>
      if Ascii.eqb c old then new ++ replace_char old new rest
      else String c (replace_char old new rest)
  end.

Definition normalize_name_for_id (name : string) : string :=
  replace_char "-" "_"
    (replace_char ")" ""
       (replace_char "(" ""
          (replace_char "," ""
             (replace_char "." ""
                (replace_char " " "_" name))))).

End OntologyVisualizer.

(** ** Observations on worlds and collaborators *)

Definition blank : World := mkWorld (mkDB [] 0) [].

(** What the Content Extractor Adapter returns for a URL. *)
Definition extractor_result (E : Env) (url : string)
  : result (option QuantumRSSParser.ArticleData) :=
  fst (QuantumRSSParser.extract_article_content E url blank).

(** What the Summarizer Adapter returns for a content. *)
Definition summarizer_result (E : Env) (content : option string)
  : result (option string) :=
  fst (QuantumNewsAgent.summarize_article_content E content blank).

(** The prompts handed to the runner, the URLs downloaded. *)
Definition submitted (t : list Event) : list string :=
  flat_map (fun e => match e with RunAsync p => [p] | _ => [] end) t.

Definition downloaded (t : list Event) : list string :=
  flat_map (fun e => match e with Download u => [u] | _ => [] end) t.

(** The records logged at a level. *)
Definition logged (lvl : LogLevel) (t : list Event) : list string :=
  flat_map
    (fun e =>
       match e, lvl with
       | Log INFO m, INFO | Log WARNING m, WARNING | Log ERROR m, ERROR => [m]
       | _, _ => []
       end) t.

(** The same environment with another feed document. *)
Definition with_feed (E : Env) (f : result Feed) : Env :=
  mkEnv (fun _ => f) (newspaper_article E) (date_today E)
        (current_timestamp E) (create_session E) (run_async E).

(** Invariants of the table: the UNIQUE constraint and the primary key. *)
Definition links_unique (d : DB) : Prop := NoDup (map article_link (rows d)).
Definition ids_unique (d : DB) : Prop := NoDup (map id (rows d)).

(** The content that [summarize_article_content] places in its prompt. *)
Definition prompt_content (text : string) : string :=
  if len text >? QuantumNewsAgent.max_content_length
  then slice_to text QuantumNewsAgent.max_content_length ++ "..."
  else text.

(** [event.content and event.content.parts] is falsy. *)
Definition no_parts (ev : AgentEvent) : bool :=
  match ev_content ev with
  | Some (_ :: _) => false
  | _ => true
  end.

(** [s.lower()] on ASCII letters: the messages of the code are compared
    with the wording of the specification up to letter case. *)
Definition lower_ascii (c : ascii) : ascii :=
  let n := nat_of_ascii c in
  if ((65 <=? n) && (n <=? 90))%nat then ascii_of_nat (n + 32) else c.

Fixpoint lower (s : string) : string :=
  match s with
  | EmptyString => EmptyString
  | String c s => String (lower_ascii c) (lower s)
  end.

(** The row that [save_article] inserts for the article returned by
    [fetch_latest_article]. *)
Definition row_of (E : Env) (a : QuantumRSSParser.NewArticle) : Row :=
  mkRow (QuantumRSSParser.a_id a) (QuantumRSSParser.a_title a)
        (Some (QuantumRSSParser.a_author a))
        (Some (QuantumRSSParser.a_publish_date a))
        (QuantumRSSParser.a_link a) (Some (QuantumRSSParser.a_content a)) None
        (current_timestamp E) (current_timestamp E).

(** The table after the [UPDATE] of [update_article_summary]. *)
Definition updated (E : Env) (article_id : Z) (summary : string) (d : DB) : DB :=
  mkDB (map (fun r => if id r =? article_id
                      then QuantumRSSParser.set_summary E summary r else r)
            (rows d))
       (seq d).

(** *** The backlog *)

(** The tuple that [get_articles_without_summary] selects from a row. *)
Definition tuple_of (r : Row) : Z * string * option string * string :=
  (id r, title r, content r, article_link r).

(** The answer of the Summarizer Adapter for a content, as a Python value. *)
Definition summary_for (E : Env) (c : option string) : option string :=
  match summarizer_result E c with
  | Ok a => a
  | Raise _ => None
  end.

(** The adapter fails for a row: it returns [None]. *)
Definition fails (E : Env) (r : Row) : bool :=
  match summary_for E (content r) with
  | Some _ => false
  | None => true
  end.

(** The adapter gives nothing that [if summary:] accepts: [None] or ['']. *)
Definition unusable (E : Env) (r : Row) : bool :=
  negb (truthy_opt (summary_for E (content r))).

(** A row after one pass of the Backlog Reconciler. *)
Definition reconciled (E : Env) (r : Row) : Row :=
  if QuantumRSSParser.without_summary r && negb (unusable E r)
  then QuantumRSSParser.set_summary E (get (summary_for E (content r)) "") r
  else r.

(** The prompt that the adapter submits for a row, if it gets that far. *)
Definition prompts_for (r : Row) : list string :=
  match content r with
  | Some c => [QuantumNewsAgent.make_prompt (prompt_content c)]
  | None => []
  end.

(** What one turn of the loop of the reconciler, for the row [x], does to
    a row [r], and to the table. *)
Definition row_step (E : Env) (x r : Row) : Row :=
  if negb (unusable E x) && (id r =? id x)
  then QuantumRSSParser.set_summary E (get (summary_for E (content x)) "") r
  else r.

Definition step_db (E : Env) (d : DB) (x : Row) : DB :=
  if unusable E x then d
  else updated E (id x) (get (summary_for E (content x)) "") d.

(** An event that the loop of the adapter passes over: it is not final,
    or it is final with neither parts nor an escalation. *)
Definition passed_over (ev : AgentEvent) : bool :=
  negb (is_final_response ev) || (no_parts ev && negb (ev_escalate ev)).

(** Timestamps from the newest to the oldest. *)
Fixpoint newest_first (l : list timestamp) : Prop :=
  match l with
  | a :: (b :: _) as rest => String.leb b a = true /\ newest_first rest
  | _ => True
  end.

(** The characters that [normalize_name_for_id] replaces or removes. *)
Definition special_char (c : ascii) : bool :=
  existsb (Ascii.eqb c) [" "; "."; ","; "("; ")"; "-"]%char.

(** A computation that only appends [t] to the log and returns [r],
    whatever the world it starts from. *)
Definition logs_only {A} (c : M A) (r : result A) (t : list Event) : Prop :=
  forall w, c w = (r, mkWorld (db w) (trace w ++ t)).

Definition logger {A} (c : M A) : Prop := exists r t, logs_only c r t.

(** ** Concrete feeds, pages, runners and tables *)

Module Scenario.

Definition L1 : string := "https://news.mit.edu/2025/qubits-at-scale".
Definition L2 : string := "https://news.mit.edu/2025/error-correction".

Definition row1 : Row :=
  mkRow 1 "Qubits at scale" (Some "A. Author") (Some "2025-01-01") L1
        (Some "Body one") None "2025-01-02 06:00:00" "2025-01-02 06:00:00".

Definition row2 : Row :=
  mkRow 2 "Error correction" (Some "B. Author") (Some "2025-01-05") L2
        (Some "Body two") (Some "") "2025-01-06 06:00:00" "2025-01-06 06:00:00".

Definition row3 : Row :=
  mkRow 3 "Trapped ions" None None "https://news.mit.edu/2025/trapped-ions"
        (Some "Body three") (Some "Ions, summarized.")
        "2025-01-07 06:00:00" "2025-01-08 06:00:00".

Definition row4 : Row :=
  mkRow 4 "Photonic chips" None None "https://news.mit.edu/2025/photonic-chips"
        (Some "Body four") None "2025-01-09 06:00:00" "2025-01-09 06:00:00".

Definition table : World := mkWorld (mkDB [row1; row2; row3; row4] 4) [].

Definition entry1 : Entry :=
  mkEntry (Some L1) (Some "Qubits at scale") (Some "A. Author")
          (Some "Wed, 01 Jan 2025 05:00:00 GMT").

Definition entry2 : Entry :=
  mkEntry (Some L2) None None None.

Definition page : Page :=
  mkPage "Page title" "Body of the page" ["Ann"; "Bob"] (Some "2025-01-05").

Definition empty_page : Page := mkPage "" "" [] None.

Definition intermediate : AgentEvent :=
  mkAgentEvent false (Some [Some "draft"]) false None.

Definition final_text (s : string) : AgentEvent :=
  mkAgentEvent true (Some [Some s]) false None.

Definition escalation (m : option string) : AgentEvent :=
  mkAgentEvent true None true m.

(** A run in which every collaborator answers. *)
Definition env_ok : Env :=
  mkEnv (fun _ => Ok (mkFeed false [entry1; entry2]))
        (fun _ => Ok page)
        "2025-01-10" "2025-01-10 06:00:00" (Ok tt)
        (fun _ => ([intermediate; final_text "A summary."], None)).

(** A runner that escalates after an intermediate event. *)
Definition env_escalates : Env :=
  mkEnv (fun _ => Ok (mkFeed false [entry1; entry2]))
        (fun _ => Ok page)
        "2025-01-10" "2025-01-10 06:00:00" (Ok tt)
        (fun _ => ([intermediate; escalation (Some "quota exceeded")], None)).

(** A text of 8002 characters. *)
Fixpoint repeat_string (s : string) (n : nat) : string :=
  match n with
  | O => ""
  | S n => s ++ repeat_string s n
  end.

Definition long_text : string :=
  repeat_string (repeat_string "quantum " 100) 10 ++ "!!".

(** A feed document that feedparser flags as malformed. *)
Definition env_malformed : Env :=
  with_feed env_ok (Ok (mkFeed true [entry1; entry2])).

(** The page of the latest entry cannot be fetched. *)
Definition env_unreachable_page : Env :=
  mkEnv (fun _ => Ok (mkFeed false [entry2; entry1]))
        (fun _ => Raise (Exception "Article `download()` failed"))
        "2025-01-10" "2025-01-10 06:00:00" (Ok tt)
        (fun _ => ([intermediate; final_text "A summary."], None)).

(** The page of the latest entry has neither title, text, authors nor date. *)
Definition env_empty_page : Env :=
  mkEnv (fun _ => Ok (mkFeed false [entry2; entry1]))
        (fun _ => Ok empty_page)
        "2025-01-10" "2025-01-10 06:00:00" (Ok tt)
        (fun _ => ([intermediate; final_text "A summary."], None)).

(** The summarization service answers nothing usable: the stream ends
    without a final event. *)
Definition env_no_summary : Env :=
  mkEnv (fun _ => Ok (mkFeed false [entry1; entry2]))
        (fun _ => Ok page)
        "2025-01-10" "2025-01-10 06:00:00" (Ok tt)
        (fun _ => ([intermediate], None)).

(** The summarization service answers with an empty text. *)
Definition env_empty_summary : Env :=
  mkEnv (fun _ => Ok (mkFeed false [entry1; entry2]))
        (fun _ => Ok page)
        "2025-01-10" "2025-01-10 06:00:00" (Ok tt)
        (fun _ => ([final_text ""], None)).

Definition one_pending : World := mkWorld (mkDB [row1] 1) [].

(** The summarization service escalates for the article "Body two" and
    answers for any other. *)
Definition env_partial : Env :=
  mkEnv (fun _ => Ok (mkFeed false [entry1; entry2]))
        (fun _ => Ok page)
        "2025-01-10" "2025-01-10 06:00:00" (Ok tt)
        (fun prompt =>
           if String.eqb prompt (QuantumNewsAgent.make_prompt "Body two")
           then ([escalation None], None)
           else ([intermediate; final_text "A summary."], None)).

(** The runner answers and then the connection breaks. *)
Definition env_late_failure : Env :=
  mkEnv (fun _ => Ok (mkFeed false [entry1; entry2]))
        (fun _ => Ok page)
        "2025-01-10" "2025-01-10 06:00:00" (Ok tt)
        (fun _ =>
           ([intermediate; mkAgentEvent true None false None;
             final_text "A summary."; final_text "Another one."],
            Some (Exception "connection reset"))).

(** A text of 4001 characters and 8002 bytes. *)
Definition accented_text : string := repeat_string "é" 4001.

(** A pending row without content. *)
Definition row5 : Row :=
  mkRow 5 "Neutral atoms" None None "https://news.mit.edu/2025/neutral-atoms"
        None None "2025-01-09 07:00:00" "2025-01-09 07:00:00".

Definition table_with_null : World :=
  mkWorld (mkDB [row1; row2; row3; row4; row5] 5) [].

End Scenario.

(** * Properties *)

Import QuantumRSSParser QuantumNewsAgent.

(** ** Running the monad *)

Ltac unfold_monad :=
  unfold try_except, bind, ret, raise, lift, logging_info, logging_warning,
    logging_error, emit, read_db, write_db in *.

Lemma bind_ok {A B} (c : M A) (k : A -> M B) w a w1 :
  c w = (Ok a, w1) -> bind c k w = k a w1.
Proof. intros H. unfold bind. now rewrite H. Qed.

Lemma bind_raise {A B} (c : M A) (k : A -> M B) w e w1 :
  c w = (Raise e, w1) -> bind c k w = (Raise e, w1).
Proof. intros H. unfold bind. now rewrite H. Qed.

Lemma try_ok {A} (c : M A) h w a w1 :
  c w = (Ok a, w1) -> try_except c h w = (Ok a, w1).
Proof. intros H. unfold try_except. now rewrite H. Qed.

Lemma try_raise {A} (c : M A) h w e w1 :
  c w = (Raise e, w1) -> try_except c h w = h e w1.
Proof. intros H. unfold try_except. now rewrite H. Qed.

(** ** The table *)

Lemma has_link_In d link :
  has_link d link = true <-> In link (map article_link (rows d)).
Proof.
  unfold has_link. rewrite existsb_exists, in_map_iff. split.
  - intros (r & Hr & Heq). apply String.eqb_eq in Heq. now exists r.
  - intros (r & Heq & Hr). exists r. split; [assumption|]. now apply String.eqb_eq.
Qed.

Lemma has_link_false d link :
  has_link d link = false <-> ~ In link (map article_link (rows d)).
Proof.
  rewrite <- has_link_In. destruct (has_link d link); split; congruence.
Qed.

Lemma fold_max_lower (l : list Z) (b : Z) : b <= fold_right Z.max b l.
Proof. induction l as [|x l IH]; simpl; lia. Qed.

Lemma next_rowid_pos d : 0 < next_rowid d.
Proof.
  unfold next_rowid.
  pose proof (fold_max_lower (map id (rows d)) (Z.max 0 (seq d))). lia.
Qed.

Lemma fold_max_upper (l : list Z) (b x : Z) :
  In x l -> x <= fold_right Z.max b l.
Proof.
  induction l as [|y l IH]; simpl; [tauto|].
  intros [->|H]; [lia|]. specialize (IH H). lia.
Qed.

Lemma next_rowid_fresh d : ~ In (next_rowid d) (map id (rows d)).
Proof.
  intros H. apply (fold_max_upper _ (Z.max 0 (seq d))) in H.
  unfold next_rowid in H. lia.
Qed.

Lemma update_rows_links E article_id summary (l : list Row) :
  map article_link
      (map (fun r => if id r =? article_id then set_summary E summary r else r) l)
  = map article_link l.
Proof.
  rewrite map_map. apply map_ext. intros r. now destruct (id r =? article_id).
Qed.

Lemma update_rows_ids E article_id summary (l : list Row) :
  map id
      (map (fun r => if id r =? article_id then set_summary E summary r else r) l)
  = map id l.
Proof.
  rewrite map_map. apply map_ext. intros r. now destruct (id r =? article_id).
Qed.

Lemma update_article_summary_run E article_id summary w :
  update_article_summary E article_id summary w =
  (Ok true,
   mkWorld
     (mkDB (map (fun r => if id r =? article_id then set_summary E summary r else r)
                (rows (db w)))
           (seq (db w)))
     (trace w ++
        [Log INFO ("Summary updated for article ID: " ++ str_of_int article_id)])).
Proof. reflexivity. Qed.

Lemma save_article_duplicate_run E t a p link c w :
  has_link (db w) link = true ->
  save_article E t a p link c w =
  (Ok None,
   mkWorld (db w) (trace w ++ [Log WARNING ("Article already exists: " ++ link)])).
Proof.
  intros H. unfold save_article, insert_row. unfold_monad. simpl. now rewrite H.
Qed.

Lemma save_article_fresh_run E t a p link c w :
  has_link (db w) link = false ->
  save_article E t a p link c w =
  (Ok (Some (next_rowid (db w))),
   mkWorld
     (mkDB (rows (db w) ++
              [mkRow (next_rowid (db w)) t (Some a) (Some p) link (Some c) None
                     (current_timestamp E) (current_timestamp E)])
           (next_rowid (db w)))
     (trace w ++
        [Log INFO ("Article saved with ID: " ++ str_of_int (next_rowid (db w)))])).
Proof.
  intros H. unfold save_article, insert_row. unfold_monad. simpl. now rewrite H.
Qed.

(** ** C9: writing a summary *)

(** C9.  [update_article_summary] succeeds, keeps the number and order of
    the rows and the AUTOINCREMENT counter, and relates every row to its
    image as follows: [id], [title], [author], [publish_date],
    [article_link], [content] and [created_at] are the same; a row with
    the given id gets the new summary and the current timestamp as
    [updated_at]; any other row is unchanged altogether. *)
Theorem update_article_summary_frame :
  forall E article_id summary w,
    fst (update_article_summary E article_id summary w) = Ok true /\
    seq (db (snd (update_article_summary E article_id summary w))) = seq (db w) /\
    Forall2
      (fun r r' =>
         id r' = id r /\ title r' = title r /\ author r' = author r /\
         publish_date r' = publish_date r /\
         article_link r' = article_link r /\ content r' = content r /\
         created_at r' = created_at r /\
         (id r = article_id ->
          ai_summary r' = Some summary /\
          updated_at r' = current_timestamp E) /\
         (id r <> article_id -> r' = r))
      (rows (db w))
      (rows (db (snd (update_article_summary E article_id summary w)))).
Proof.
  intros E article_id summary w.
  rewrite update_article_summary_run. simpl.
  repeat split.
  induction (rows (db w)) as [|r l IH]; simpl; constructor; [|exact IH].
  destruct (Z.eqb_spec (id r) article_id) as [Heq|Hne]; simpl.
  - repeat split; congruence.
  - repeat split; congruence.
Qed.

(** ** C3: link uniqueness *)

(** C3.  In a table whose links are pairwise distinct, [save_article] and
    [update_article_summary] leave the links pairwise distinct; and an
    insert whose link is already in the table returns [None] without
    raising, leaves the table as it was, and logs one WARNING record and
    no ERROR record. *)
Theorem save_article_link_unique :
  forall E w,
    links_unique (db w) ->
    (forall t a p link c, links_unique (db (snd (save_article E t a p link c w)))) /\
    (forall article_id summary,
        links_unique (db (snd (update_article_summary E article_id summary w)))) /\
    (forall t a p link c,
        has_link (db w) link = true ->
        save_article E t a p link c w =
        (Ok None,
         mkWorld (db w)
                 (trace w ++ [Log WARNING ("Article already exists: " ++ link)])) /\
        logged ERROR (trace (snd (save_article E t a p link c w)))
        = logged ERROR (trace w)).
Proof.
  intros E w Huniq. unfold links_unique in *. repeat split.
  - intros t a p link c.
    destruct (has_link (db w) link) eqn:Hl.
    + rewrite save_article_duplicate_run by assumption. exact Huniq.
    + rewrite save_article_fresh_run by assumption. simpl.
      rewrite map_app. simpl.
      apply has_link_false in Hl.
      apply NoDup_app; [assumption|repeat constructor; simpl; tauto|].
      intros x Hx [<-|[]]. contradiction.
  - intros article_id summary. rewrite update_article_summary_run. simpl.
    now rewrite update_rows_links.
  - now apply save_article_duplicate_run.
  - rewrite save_article_duplicate_run by assumption. simpl.
    unfold logged. rewrite flat_map_app. simpl. now rewrite app_nil_r.
Qed.

Lemma save_article_link_unique_witness :
  links_unique (db Scenario.table) /\
  save_article Scenario.env_ok "Qubits again" "C. Author" "2025-02-01"
               Scenario.L1 "Another body" Scenario.table =
  (Ok None,
   mkWorld (db Scenario.table)
           [Log WARNING ("Article already exists: " ++ Scenario.L1)]).
Proof.
  assert (H : links_unique (db Scenario.table)).
  { unfold links_unique. simpl.
    repeat constructor; simpl; intuition discriminate. }
  split; [exact H|].
  destruct (save_article_link_unique Scenario.env_ok Scenario.table H)
    as (_ & _ & Hdup).
  apply (Hdup "Qubits again" "C. Author" "2025-02-01" Scenario.L1 "Another body").
  reflexivity.
Defined.

(** ** Computations that only write to the log *)

Lemma world_eta w : mkWorld (db w) (trace w ++ []) = w.
Proof. destruct w; simpl. now rewrite app_nil_r. Qed.

Lemma logs_only_ret {A} (a : A) : logs_only (ret a) (Ok a) [].
Proof. intros w. unfold ret. now rewrite world_eta. Qed.

Lemma logs_only_raise {A} e : logs_only (@raise A e) (Raise e) [].
Proof. intros w. unfold raise. now rewrite world_eta. Qed.

Lemma logs_only_lift {A} (r : result A) : logs_only (lift r) r [].
Proof. intros w. unfold lift. now rewrite world_eta. Qed.

Lemma logs_only_emit e : logs_only (emit e) (Ok tt) [e].
Proof. intros w. reflexivity. Qed.

Lemma logs_only_bind_ok {A B} (c : M A) (k : A -> M B) a t1 r t2 :
  logs_only c (Ok a) t1 -> logs_only (k a) r t2 ->
  logs_only (bind c k) r (t1 ++ t2).
Proof.
  intros Hc Hk w. rewrite (bind_ok _ _ _ _ _ (Hc w)), Hk. simpl.
  now rewrite app_assoc.
Qed.

Lemma logs_only_bind_raise {A B} (c : M A) (k : A -> M B) e t :
  logs_only c (Raise e) t -> logs_only (bind c k) (Raise e) t.
Proof. intros Hc w. now rewrite (bind_raise _ _ _ _ _ (Hc w)). Qed.

Lemma logs_only_try_ok {A} (c : M A) h a t :
  logs_only c (Ok a) t -> logs_only (try_except c h) (Ok a) t.
Proof. intros Hc w. now rewrite (try_ok _ _ _ _ _ (Hc w)). Qed.

Lemma logs_only_try_raise {A} (c : M A) h e t1 r t2 :
  logs_only c (Raise e) t1 -> logs_only (h e) r t2 ->
  logs_only (try_except c h) r (t1 ++ t2).
Proof.
  intros Hc Hh w. rewrite (try_raise _ _ _ _ _ (Hc w)), Hh. simpl.
  now rewrite app_assoc.
Qed.

Lemma logs_only_inj {A} (c : M A) r1 t1 r2 t2 :
  logs_only c r1 t1 -> logs_only c r2 t2 -> r1 = r2 /\ t1 = t2.
Proof.
  intros H1 H2. specialize (H1 blank). specialize (H2 blank).
  rewrite H1 in H2. simpl in H2. now inversion H2.
Qed.

Lemma logger_ret {A} (a : A) : logger (ret a).
Proof. eexists _, _. apply logs_only_ret. Qed.

Lemma logger_raise {A} e : logger (@raise A e).
Proof. eexists _, _. apply logs_only_raise. Qed.

Lemma logger_lift {A} (r : result A) : logger (lift r).
Proof. eexists _, _. apply logs_only_lift. Qed.

Lemma logger_emit e : logger (emit e).
Proof. eexists _, _. apply logs_only_emit. Qed.

Lemma logger_bind {A B} (c : M A) (k : A -> M B) :
  logger c -> (forall a, logger (k a)) -> logger (bind c k).
Proof.
  intros ([a|e] & t1 & Hc) Hk.
  - destruct (Hk a) as (r & t2 & Ha). eexists _, _.
    eapply logs_only_bind_ok; eassumption.
  - eexists _, _. eapply logs_only_bind_raise; eassumption.
Qed.

Lemma logger_try {A} (c : M A) h :
  logger c -> (forall e, logger (h e)) -> logger (try_except c h).
Proof.
  intros ([a|e] & t1 & Hc) Hh.
  - eexists _, _. eapply logs_only_try_ok; eassumption.
  - destruct (Hh e) as (r & t2 & He). eexists _, _.
    eapply logs_only_try_raise; eassumption.
Qed.

Create HintDb logger.
#[local] Hint Resolve logger_ret logger_raise logger_lift logger_emit
  logger_bind logger_try : logger.

Lemma logger_log lvl msg : logger (emit (Log lvl msg)).
Proof. apply logger_emit. Qed.

(** A handler that returns makes the whole [try] return. *)
Lemma try_except_returns {A} (c : M A) h :
  logger c ->
  (forall e, exists a t, logs_only (h e) (Ok a) t) ->
  exists a t, logs_only (try_except c h) (Ok a) t.
Proof.
  intros ([a|e] & t1 & Hc) Hh.
  - eexists _, _. eapply logs_only_try_ok; eassumption.
  - destruct (Hh e) as (a & t2 & He). eexists _, _.
    eapply logs_only_try_raise; eassumption.
Qed.

(** ** The Summarizer Adapter *)

Lemma logger_consume_events evs end_exn : logger (consume_events evs end_exn).
Proof.
  induction evs as [|ev evs IH]; simpl.
  - destruct end_exn; auto with logger.
  - destruct (is_final_response ev); [|assumption].
    destruct (ev_content ev) as [[|part parts]|];
      try (destruct (ev_escalate ev); [|assumption]);
      unfold logging_info, logging_error; auto with logger.
Qed.

Lemma summarize_logs_only E content :
  exists a t, logs_only (summarize_article_content E content) (Ok a) t.
Proof.
  unfold summarize_article_content. apply try_except_returns.
  - apply logger_bind; [apply logger_lift|]. intros _.
    apply logger_bind.
    + destruct content as [c|]; [|apply logger_raise].
      destruct (len c >? max_content_length);
        unfold logging_info; auto with logger.
    + intros c. unfold logging_info.
      repeat (apply logger_bind; [apply logger_emit|]; intros _).
      apply logger_consume_events.
  - intros e. eexists _, _. unfold logging_error.
    eapply logs_only_bind_ok; [apply logs_only_emit|apply logs_only_ret].
Qed.

(** The adapter answers the same in every world and leaves the table alone. *)
Lemma summarize_run E content :
  exists a t,
    summarizer_result E content = Ok a /\
    logs_only (summarize_article_content E content) (Ok a) t.
Proof.
  destruct (summarize_logs_only E content) as (a & t & H).
  exists a, t. split; [|assumption].
  unfold summarizer_result. now rewrite H.
Qed.

Lemma consume_events_skip pre rest end_exn :
  forallb (fun ev => negb (is_final_response ev)) pre = true ->
  consume_events (pre ++ rest) end_exn = consume_events rest end_exn.
Proof.
  induction pre as [|ev pre IH]; simpl; [reflexivity|].
  intros H. apply andb_prop in H as [Hev Hpre].
  destruct (is_final_response ev); [discriminate|]. now apply IH.
Qed.

Lemma consume_events_escalation ev rest end_exn w :
  is_final_response ev = true -> no_parts ev = true -> ev_escalate ev = true ->
  consume_events (ev :: rest) end_exn w =
  (Ok None,
   mkWorld (db w)
     (trace w ++
        [Log ERROR ("Agent escalated: " ++
                    or_else (get (error_message ev) "") "No specific message.")])).
Proof.
  intros Hf Hp He. simpl. rewrite Hf. unfold no_parts in Hp.
  destruct (ev_content ev) as [[|part parts]|]; try discriminate;
    rewrite He; reflexivity.
Qed.

(** The adapter up to the call of the runner, for a [str] content. *)
Lemma summarize_some_run E text w :
  create_session E = Ok tt ->
  summarize_article_content E (Some text) w =
  try_except
    (consume_events (fst (run_async E (make_prompt (prompt_content text))))
                    (snd (run_async E (make_prompt (prompt_content text)))))
    (fun e =>
       logging_error ("Error generating summary: " ++ str_of_exn e) ;;
       ret None)
    (mkWorld (db w)
       (trace w ++
          (if len text >? max_content_length
           then [Log INFO "Content truncated due to length"] else []) ++
          [Log INFO "Generating AI summary...";
           RunAsync (make_prompt (prompt_content text))])).
Proof.
  intros Hs. unfold summarize_article_content, prompt_content.
  unfold try_except at 1 2. unfold bind at 1, lift at 1. rewrite Hs.
  unfold bind at 1.
  destruct (len text >? max_content_length); unfold_monad; simpl;
    rewrite <- ?app_assoc; reflexivity.
Qed.

Lemma logged_app lvl t1 t2 : (logged lvl (t1 ++ t2) = logged lvl t1 ++ logged lvl t2)%list.
Proof. apply flat_map_app. Qed.

Lemma submitted_app t1 t2 : (submitted (t1 ++ t2) = submitted t1 ++ submitted t2)%list.
Proof. apply flat_map_app. Qed.

Lemma downloaded_app t1 t2 : (downloaded (t1 ++ t2) = downloaded t1 ++ downloaded t2)%list.
Proof. apply flat_map_app. Qed.

(** The loop over the events calls no collaborator. *)
Lemma consume_events_quiet evs end_exn :
  exists r t,
    logs_only (consume_events evs end_exn) r t /\
    submitted t = [] /\ downloaded t = [].
Proof.
  induction evs as [|ev evs IH]; simpl.
  - destruct end_exn as [e|].
    + exists (Raise e), []. split; [apply logs_only_raise|now split].
    + exists (Ok None), []. split; [apply logs_only_ret|now split].
  - destruct (is_final_response ev); [|assumption].
    destruct (ev_content ev) as [[|part parts]|];
      try (destruct (ev_escalate ev); [|assumption]);
      eexists _, [_];
      (split;
       [unfold logging_info, logging_error;
        eapply (logs_only_bind_ok _ _ _ [_] _ []);
        [apply logs_only_emit|apply logs_only_ret]
       |now split]).
Qed.

Lemma summarize_handler_quiet (e : exn) :
  logs_only (logging_error ("Error generating summary: " ++ str_of_exn e) ;;
             ret (@None string))
            (Ok None) [Log ERROR ("Error generating summary: " ++ str_of_exn e)].
Proof.
  unfold logging_error.
  apply (logs_only_bind_ok _ _ tt [_] _ []);
    [apply logs_only_emit|apply logs_only_ret].
Qed.

(** ** C6: the adapter returns, whatever its collaborator does *)

(** C6.  For every environment, content and world, [summarize_article_content]
    returns a value (a string or [None]) and only appends to the log;
    no exception escapes.  When the stream of the runner reaches, after
    events that are not final, a final event without parts that escalates,
    the adapter returns [None] and the error log holds the escalation
    message. *)
Theorem summarize_article_content_never_raises :
  forall E content w,
    (exists a t,
        summarize_article_content E content w =
        (Ok a, mkWorld (db w) (trace w ++ t))) /\
    (forall text pre ev post,
        content = Some text ->
        create_session E = Ok tt ->
        fst (run_async E (make_prompt (prompt_content text))) = (pre ++ ev :: post)%list ->
        forallb (fun ev => negb (is_final_response ev)) pre = true ->
        is_final_response ev = true ->
        no_parts ev = true ->
        ev_escalate ev = true ->
        fst (summarize_article_content E content w) = Ok None /\
        In ("Agent escalated: " ++
            or_else (get (error_message ev) "") "No specific message.")
           (logged ERROR (trace (snd (summarize_article_content E content w))))).
Proof.
  intros E content w. split.
  - destruct (summarize_logs_only E content) as (a & t & H).
    exists a, t. apply H.
  - intros text pre ev post -> Hs Hev Hpre Hf Hp He.
    rewrite summarize_some_run by assumption.
    rewrite Hev, consume_events_skip by assumption.
    unfold try_except. rewrite consume_events_escalation by assumption.
    cbn [fst snd trace db]. split; [reflexivity|].
    rewrite logged_app. apply in_or_app. right. now left.
Qed.

Lemma summarize_article_content_never_raises_witness :
  fst (summarize_article_content Scenario.env_escalates (Some "Body one") blank)
  = Ok None /\
  In "Agent escalated: quota exceeded"
     (logged ERROR
        (trace (snd (summarize_article_content Scenario.env_escalates
                       (Some "Body one") blank)))).
Proof.
  destruct (summarize_article_content_never_raises
              Scenario.env_escalates (Some "Body one") blank) as [_ H].
  apply (H "Body one" [Scenario.intermediate]
           (Scenario.escalation (Some "quota exceeded")) []);
    reflexivity.
Defined.

(** ** C7: truncation of the content *)

Lemma characters_app (s1 s2 : string) :
  characters (s1 ++ s2) = (characters s1 + characters s2)%nat.
Proof.
  induction s1 as [|c s1 IH]; cbn [String.append characters]; [reflexivity|].
  rewrite IH. now destruct (continuation c).
Qed.

(** Cutting a string of more than [n] characters after the first [n]. *)
Lemma first_characters_cut (s : string) :
  forall n,
    (n < characters s)%nat ->
    exists rest,
      s = first_characters n s ++ rest /\
      characters (first_characters n s) = n /\
      rest <> "" /\ boundary rest = true.
Proof.
  induction s as [|c s IH]; intros n Hn; cbn [characters] in Hn; [lia|].
  cbn [first_characters]. destruct (continuation c) eqn:Hc.
  - destruct (IH n Hn) as (rest & Hs & Hl & Hne & Hb). exists rest.
    cbn [String.append characters]. rewrite Hc, <- Hs. now repeat split.
  - destruct n as [|n].
    + exists (String c s). cbn [String.append characters boundary].
      rewrite Hc. repeat split. discriminate.
    + destruct (IH n) as (rest & Hs & Hl & Hne & Hb); [lia|]. exists rest.
      cbn [String.append characters]. rewrite Hc, <- Hs, Hl. now repeat split.
Qed.

Lemma first_characters_le (s : string) :
  forall n, (characters (first_characters n s) <= n)%nat.
Proof.
  induction s as [|c s IH]; intros n; cbn [first_characters characters]; [lia|].
  destruct (continuation c) eqn:Hc.
  - cbn [characters]. rewrite Hc. apply IH.
  - destruct n as [|n]; cbn [characters]; [lia|]. rewrite Hc.
    specialize (IH n). lia.
Qed.

Lemma summarize_some_submitted E text w :
  create_session E = Ok tt ->
  submitted (trace (snd (summarize_article_content E (Some text) w))) =
  (submitted (trace w) ++ [make_prompt (prompt_content text)])%list.
Proof.
  intros Hs. rewrite summarize_some_run by assumption.
  destruct (consume_events_quiet
              (fst (run_async E (make_prompt (prompt_content text))))
              (snd (run_async E (make_prompt (prompt_content text)))))
    as (r & t & Hrun & Hsub & _).
  unfold try_except. rewrite Hrun.
  assert (Hpre :
            submitted
              (trace w ++
               (if len text >? max_content_length
                then [Log INFO "Content truncated due to length"] else []) ++
               [Log INFO "Generating AI summary...";
                RunAsync (make_prompt (prompt_content text))]) =
            (submitted (trace w) ++ [make_prompt (prompt_content text)])%list).
  { rewrite !submitted_app. now destruct (len text >? max_content_length). }
  destruct r as [a|e]; cbn [snd trace db].
  - now rewrite submitted_app, Hsub, app_nil_r.
  - rewrite (summarize_handler_quiet e). cbn [snd trace db].
    rewrite (submitted_app (_ ++ t)), (submitted_app _ t), Hsub, Hpre.
    cbn [submitted flat_map]. now rewrite !app_nil_r.
Qed.

(** C7.  When the session is created, one call of the adapter hands one
    prompt to the runner: the fixed request followed by a [body] and a
    closing line.  A text of at most 8000 characters is the body itself,
    with no marker; a longer text is cut after its first 8000 characters
    (the cut falls between two characters) and the marker ["..."] is
    appended, so that at most 8000 characters of the text are submitted. *)
Theorem summarize_article_content_truncates :
  forall E text w,
    create_session E = Ok tt ->
    exists body,
      submitted (trace (snd (summarize_article_content E (Some text) w))) =
      (submitted (trace w) ++
       [("
            Please summarize the following quantum computing article in exactly 250 words.
            Make the summary engaging and accessible to general readers while preserving the key technical concepts.
            Use plain English and avoid jargon where possible.

            Article content:
            " ++ body ++ "
            ")%string])%list /\
      (len text <= 8000 -> body = text) /\
      (8000 < len text ->
       exists pre rest,
         text = pre ++ rest /\ len pre = 8000 /\
         rest <> "" /\ boundary rest = true /\
         body = pre ++ "...").
Proof.
  intros E text w Hs. exists (prompt_content text).
  split; [exact (summarize_some_submitted E text w Hs)|].
  unfold prompt_content, max_content_length, slice_to, len.
  split; intros Hlen.
  - destruct (Z.gtb_spec (Z.of_nat (characters text)) 8000); [lia|reflexivity].
  - destruct (Z.gtb_spec (Z.of_nat (characters text)) 8000); [|lia].
    destruct (first_characters_cut text (Z.to_nat 8000))
      as (rest & Ht & Hl & Hne & Hb); [lia|].
    exists (first_characters (Z.to_nat 8000) text), rest.
    split; [exact Ht|]. split; [rewrite Hl; lia|].
    split; [exact Hne|]. split; [exact Hb|reflexivity].
Qed.

Lemma summarize_article_content_truncates_witness :
  (exists body pre rest,
      submitted (trace (snd (summarize_article_content Scenario.env_ok
                               (Some Scenario.long_text) blank))) =
      [make_prompt body] /\
      Scenario.long_text = pre ++ rest /\ len pre = 8000 /\ body = pre ++ "...") /\
  len Scenario.accented_text = 4001 /\
  submitted (trace (snd (summarize_article_content Scenario.env_ok
                           (Some Scenario.accented_text) blank))) =
  [make_prompt Scenario.accented_text].
Proof.
  split; [|split; [vm_compute; reflexivity|]].
  - destruct (summarize_article_content_truncates
                Scenario.env_ok Scenario.long_text blank eq_refl)
      as (body & Hsub & _ & Hlong).
    destruct Hlong as (pre & rest & Ht & Hl & _ & _ & Hb);
      [vm_compute; reflexivity|].
    exists body, pre, rest. repeat split; assumption.
  - destruct (summarize_article_content_truncates
                Scenario.env_ok Scenario.accented_text blank eq_refl)
      as (body & Hsub & Hshort & _).
    rewrite Hsub, Hshort; [reflexivity|vm_compute; discriminate].
Defined.

(** ** The Content Extractor Adapter *)

Lemma extract_ok_run E url page w :
  newspaper_article E url = Ok page ->
  extract_article_content E url w =
  (Ok (Some {|
     d_title := or_else (p_title page) "No Title";
     d_content := or_else (p_text page) "No Content";
     d_authors :=
       match p_authors page with
       | [] => "Unknown Author"
       | _ :: _ => join ", " (p_authors page)
       end;
     d_publish_date :=
       match p_publish_date page with
       | Some d => d
       | None => date_today E
       end |}),
   mkWorld (db w) (trace w ++ [Download url])).
Proof.
  intros H. unfold extract_article_content. unfold_monad. now rewrite H.
Qed.

Lemma extract_fail_run E url e w :
  newspaper_article E url = Raise e ->
  extract_article_content E url w =
  (Ok None,
   mkWorld (db w)
     (trace w ++
        [Download url;
         Log ERROR ("Error extracting content from " ++ url ++ ": " ++
                    str_of_exn e)])).
Proof.
  intros H. unfold extract_article_content. unfold_monad. rewrite H.
  cbn [db trace]. now rewrite <- app_assoc.
Qed.

Lemma extractor_result_none E url :
  extractor_result E url = Ok None ->
  exists e, newspaper_article E url = Raise e.
Proof.
  unfold extractor_result. destruct (newspaper_article E url) as [page|e] eqn:H.
  - rewrite (extract_ok_run _ _ _ _ H). discriminate.
  - now exists e.
Qed.

(** ** The paths of [fetch_latest_article] *)

Section FetchLatest.

Variable E : Env.
Variable w : World.

Lemma fetch_feed_raises e :
  feedparser_parse E rss_url = Raise e ->
  fetch_latest_article E w =
  (Ok None,
   mkWorld (db w)
     (trace w ++
        [FeedParse rss_url;
         Log ERROR ("Error fetching RSS feed: " ++ str_of_exn e)])).
Proof.
  intros H. unfold fetch_latest_article. unfold_monad. rewrite H.
  cbn [db trace]. now rewrite <- app_assoc.
Qed.

Variable feed : Feed.
Hypothesis Hfeed : feedparser_parse E rss_url = Ok feed.

Lemma fetch_bozo :
  bozo feed = true ->
  fetch_latest_article E w =
  (Ok None,
   mkWorld (db w)
     (trace w ++ [FeedParse rss_url; Log ERROR "Failed to parse RSS feed"])).
Proof.
  intros H. unfold fetch_latest_article. unfold_monad. rewrite Hfeed, H.
  cbn [db trace]. now rewrite <- app_assoc.
Qed.

Hypothesis Hbozo : bozo feed = false.

Lemma fetch_no_entries :
  entries feed = [] ->
  fetch_latest_article E w =
  (Ok None,
   mkWorld (db w)
     (trace w ++ [FeedParse rss_url; Log INFO "No entries found in RSS feed"])).
Proof.
  intros H. unfold fetch_latest_article. unfold_monad. rewrite Hfeed, Hbozo, H.
  cbn [db trace]. now rewrite <- app_assoc.
Qed.

Variable latest_entry : Entry.
Variable older : list Entry.
Hypothesis Hentries : entries feed = latest_entry :: older.

Let article_link := get (e_link latest_entry) "".

Lemma fetch_duplicate :
  has_link (db w) article_link = true ->
  fetch_latest_article E w =
  (Ok None,
   mkWorld (db w)
     (trace w ++
        [FeedParse rss_url; Log INFO ("Article already exists: " ++ article_link)])).
Proof.
  intros H. unfold fetch_latest_article, article_exists. unfold_monad.
  rewrite Hfeed, Hbozo, Hentries. cbn [db trace].
  fold article_link. rewrite H. cbn [db trace]. now rewrite <- app_assoc.
Qed.

Hypothesis Hnew : has_link (db w) article_link = false.

Lemma fetch_extract_fails e :
  newspaper_article E article_link = Raise e ->
  fetch_latest_article E w =
  (Ok None,
   mkWorld (db w)
     (trace w ++
        [FeedParse rss_url;
         Download article_link;
         Log ERROR ("Error extracting content from " ++ article_link ++ ": " ++
                    str_of_exn e);
         Log ERROR ("Failed to extract content from: " ++ article_link)])).
Proof.
  intros H. unfold fetch_latest_article, article_exists.
  unfold try_except at 1. unfold bind at 1. unfold emit at 1.
  unfold bind at 1, lift at 1. rewrite Hfeed, Hbozo, Hentries.
  unfold bind at 1. unfold bind at 1, read_db, ret at 1. cbn [db trace].
  fold article_link. rewrite Hnew.
  unfold bind at 1. rewrite (extract_fail_run _ _ _ _ H).
  unfold_monad. cbn [db trace]. now rewrite <- !app_assoc.
Qed.

Lemma fetch_new page :
  newspaper_article E article_link = Ok page ->
  let title := get (e_title latest_entry) (or_else (p_title page) "No Title") in
  let author :=
    get (e_author latest_entry)
        match p_authors page with
        | [] => "Unknown Author"
        | _ :: _ => join ", " (p_authors page)
        end in
  let publish_date :=
    get (e_published latest_entry)
        match p_publish_date page with
        | Some d => d
        | None => date_today E
        end in
  let content := or_else (p_text page) "No Content" in
  let article_id := next_rowid (db w) in
  fetch_latest_article E w =
  (Ok (Some (mkNewArticle article_id title author publish_date article_link content)),
   mkWorld
     (mkDB (rows (db w) ++
              [mkRow article_id title (Some author) (Some publish_date) article_link
                     (Some content) None
                     (current_timestamp E) (current_timestamp E)])
           article_id)
     (trace w ++
        [FeedParse rss_url;
         Download article_link;
         Log INFO ("Article saved with ID: " ++ str_of_int article_id);
         Log INFO ("Successfully processed new article: " ++ title)])).
Proof.
  intros H title author publish_date content article_id.
  unfold fetch_latest_article, article_exists.
  unfold try_except at 1. unfold bind at 1. unfold emit at 1.
  unfold bind at 1, lift at 1. rewrite Hfeed, Hbozo, Hentries.
  unfold bind at 1. unfold bind at 1, read_db, ret at 1. cbn [db trace].
  fold article_link. rewrite Hnew.
  unfold bind at 1. rewrite (extract_ok_run _ _ _ _ H).
  cbn [d_title d_content d_authors d_publish_date].
  fold title author publish_date content.
  unfold bind at 1. rewrite save_article_fresh_run by exact Hnew.
  cbn [db trace]. fold article_id.
  assert (Hid : (article_id =? 0) = false).
  { apply Z.eqb_neq. pose proof (next_rowid_pos (db w)). subst article_id. lia. }
  rewrite Hid. unfold_monad. cbn [db trace]. now rewrite <- !app_assoc.
Qed.

End FetchLatest.

(** ** C8: the feed *)

Lemma fetch_head_only E w latest older1 older2 :
  fetch_latest_article (with_feed E (Ok (mkFeed false (latest :: older1)))) w =
  fetch_latest_article (with_feed E (Ok (mkFeed false (latest :: older2)))) w.
Proof.
  set (f1 := mkFeed false (latest :: older1)).
  set (f2 := mkFeed false (latest :: older2)).
  destruct (has_link (db w) (get (e_link latest) "")) eqn:Hl.
  - rewrite (fetch_duplicate (with_feed E (Ok f1)) w f1 eq_refl eq_refl
               latest older1 eq_refl Hl).
    now rewrite (fetch_duplicate (with_feed E (Ok f2)) w f2 eq_refl eq_refl
                   latest older2 eq_refl Hl).
  - destruct (newspaper_article E (get (e_link latest) "")) as [page|e] eqn:Hp.
    + rewrite (fetch_new (with_feed E (Ok f1)) w f1 eq_refl eq_refl
                 latest older1 eq_refl Hl page Hp).
      now rewrite (fetch_new (with_feed E (Ok f2)) w f2 eq_refl eq_refl
                     latest older2 eq_refl Hl page Hp).
    + rewrite (fetch_extract_fails (with_feed E (Ok f1)) w f1 eq_refl eq_refl
                 latest older1 eq_refl Hl e Hp).
      now rewrite (fetch_extract_fails (with_feed E (Ok f2)) w f2 eq_refl eq_refl
                     latest older2 eq_refl Hl e Hp).
Qed.

(** C8, as the code has it.  [fetch_latest_article] raises nothing on a
    feed that cannot be parsed: a feed flagged [bozo] gives [None] with the
    ERROR record "Failed to parse RSS feed", and an exception of feedparser
    is caught and gives [None] too; a feed that parses with zero entries
    gives [None] with an INFO record; in all three cases the table is left
    alone and no page is downloaded.  The entries after the first have no
    influence on the outcome. *)
Theorem fetch_latest_article_feed_outcomes :
  forall E w,
    (forall es,
        fetch_latest_article (with_feed E (Ok (mkFeed true es))) w =
        (Ok None,
         mkWorld (db w)
           (trace w ++ [FeedParse rss_url; Log ERROR "Failed to parse RSS feed"]))) /\
    (forall e,
        fetch_latest_article (with_feed E (Raise e)) w =
        (Ok None,
         mkWorld (db w)
           (trace w ++
              [FeedParse rss_url;
               Log ERROR ("Error fetching RSS feed: " ++ str_of_exn e)]))) /\
    fetch_latest_article (with_feed E (Ok (mkFeed false []))) w =
    (Ok None,
     mkWorld (db w)
       (trace w ++ [FeedParse rss_url; Log INFO "No entries found in RSS feed"])) /\
    (forall latest older1 older2,
        fetch_latest_article (with_feed E (Ok (mkFeed false (latest :: older1)))) w =
        fetch_latest_article (with_feed E (Ok (mkFeed false (latest :: older2)))) w).
Proof.
  intros E w. split; [|split; [|split]].
  - intros es. now apply (fetch_bozo _ w (mkFeed true es)).
  - intros e. now apply fetch_feed_raises.
  - now apply (fetch_no_entries _ w (mkFeed false [])).
  - apply fetch_head_only.
Qed.

(** C8 as stated fails: on a malformed feed the fetch returns [None], it
    does not raise. *)
Lemma fetch_latest_article_malformed_feed_returns_none :
  bozo (mkFeed true [Scenario.entry1; Scenario.entry2]) = true /\
  fetch_latest_article Scenario.env_malformed blank =
  (Ok None,
   mkWorld (db blank) [FeedParse rss_url; Log ERROR "Failed to parse RSS feed"]) /\
  ~ (exists e, fst (fetch_latest_article Scenario.env_malformed blank) = Raise e).
Proof.
  split; [reflexivity|]. split; [reflexivity|].
  intros [e H]. vm_compute in H. discriminate H.
Qed.

(** ** The outcomes of [fetch_latest_article] and [process_new_articles] *)

(** Either nothing is inserted and [None] is returned, or one row is
    appended for a link that was not in the table. *)
Lemma fetch_cases E w :
  (exists t,
      fetch_latest_article E w = (Ok None, mkWorld (db w) (trace w ++ t)) /\
      submitted t = []) \/
  (exists art t,
      fetch_latest_article E w =
      (Ok (Some art),
       mkWorld (mkDB (rows (db w) ++ [row_of E art]) (a_id art)) (trace w ++ t)) /\
      has_link (db w) (a_link art) = false /\
      a_id art = next_rowid (db w) /\
      submitted t = []).
Proof.
  destruct (feedparser_parse E rss_url) as [feed|e] eqn:Hfeed.
  2:{ left. eexists. split; [exact (fetch_feed_raises E w e Hfeed)|reflexivity]. }
  destruct (bozo feed) eqn:Hbozo.
  { left. eexists. split; [exact (fetch_bozo E w feed Hfeed Hbozo)|reflexivity]. }
  destruct (entries feed) as [|latest older] eqn:Hentries.
  { left. eexists.
    split; [exact (fetch_no_entries E w feed Hfeed Hbozo Hentries)|reflexivity]. }
  destruct (has_link (db w) (get (e_link latest) "")) eqn:Hl.
  { left. eexists.
    split; [exact (fetch_duplicate E w feed Hfeed Hbozo latest older Hentries Hl)|].
    reflexivity. }
  destruct (newspaper_article E (get (e_link latest) "")) as [page|e] eqn:Hp.
  - right. eexists _, _.
    split; [exact (fetch_new E w feed Hfeed Hbozo latest older Hentries Hl page Hp)|].
    cbn [a_link a_id]. repeat split. exact Hl.
  - left. eexists.
    split; [exact (fetch_extract_fails E w feed Hfeed Hbozo latest older
                     Hentries Hl e Hp)|].
    reflexivity.
Qed.

Lemma process_no_article E w w1 :
  fetch_latest_article E w = (Ok None, w1) ->
  process_new_articles E w =
  (Ok NoNewArticles,
   mkWorld (db w1) (trace w1 ++ [Log INFO "No new articles to process"])).
Proof.
  intros H. unfold process_new_articles.
  unfold try_except, bind at 1. now rewrite H.
Qed.

Lemma process_article E w art w1 a t :
  fetch_latest_article E w = (Ok (Some art), w1) ->
  logs_only (summarize_article_content E (Some (a_content art))) (Ok a) t ->
  process_new_articles E w =
  if truthy_opt a then
    (Ok (Success art (get a "")),
     mkWorld (updated E (a_id art) (get a "") (db w1))
       (trace w1 ++
          Log INFO ("Processing new article: " ++ a_title art) :: t ++
          [Log INFO ("Summary updated for article ID: " ++ str_of_int (a_id art));
           Log INFO "Article processed and summary saved successfully"]))
  else
    (Ok (Error "Failed to generate summary"),
     mkWorld (db w1)
       (trace w1 ++
          Log INFO ("Processing new article: " ++ a_title art) :: t ++
          [Log ERROR "Failed to generate summary"])).
Proof.
  intros Hf Hs. unfold process_new_articles.
  unfold try_except, bind at 1. rewrite Hf.
  unfold bind at 1, logging_info at 1, emit at 1.
  unfold bind at 1. rewrite Hs. cbn [db trace].
  destruct (truthy_opt a).
  - unfold bind at 1. rewrite update_article_summary_run.
    unfold_monad. cbn [db trace]. unfold updated.
    rewrite <- !app_assoc. reflexivity.
  - unfold_monad. cbn [db trace]. rewrite <- !app_assoc. reflexivity.
Qed.

Lemma fetch_some_inv E w art w1 :
  fetch_latest_article E w = (Ok (Some art), w1) ->
  db w1 = mkDB (rows (db w) ++ [row_of E art]) (a_id art) /\
  has_link (db w) (a_link art) = false /\
  a_id art = next_rowid (db w).
Proof.
  intros H. destruct (fetch_cases E w) as [(t & Ht & _)|(art' & t & Ht & Hl & Hid & _)];
    rewrite Ht in H; [discriminate|].
  inversion H; subst. repeat split; assumption.
Qed.

Lemma fetch_none_inv E w w1 :
  fetch_latest_article E w = (Ok None, w1) -> db w1 = db w.
Proof.
  intros H. destruct (fetch_cases E w) as [(t & Ht & _)|(art' & t & Ht & _)];
    rewrite Ht in H; [|discriminate].
  now inversion H.
Qed.

Lemma summarize_logs_submitted E text a t :
  create_session E = Ok tt ->
  logs_only (summarize_article_content E (Some text)) (Ok a) t ->
  submitted t = [make_prompt (prompt_content text)].
Proof.
  intros Hs Hl. pose proof (summarize_some_submitted E text blank Hs) as H.
  now rewrite (Hl blank) in H.
Qed.

(** ** C2: the page cannot be extracted *)

(** C2, as the code has it.  When the feed yields a latest entry whose link
    is not in the table and the Content Extractor Adapter returns [None]
    for it, [process_new_articles] returns the status [no_new_articles]
    (the failure is only logged, at ERROR level, as "Failed to extract
    content from: <link>"), the table is left as it was and the
    summarizer is not called. *)
Theorem process_new_articles_extraction_failure :
  forall E w feed latest older,
    feedparser_parse E rss_url = Ok feed ->
    bozo feed = false ->
    entries feed = latest :: older ->
    has_link (db w) (get (e_link latest) "") = false ->
    extractor_result E (get (e_link latest) "") = Ok None ->
    exists t,
      process_new_articles E w =
      (Ok NoNewArticles, mkWorld (db w) (trace w ++ t)) /\
      status NoNewArticles = "no_new_articles" /\
      In ("Failed to extract content from: " ++ get (e_link latest) "")
         (logged ERROR t) /\
      submitted t = [].
Proof.
  intros E w feed latest older Hfeed Hbozo Hentries Hnew Hx.
  destruct (extractor_result_none _ _ Hx) as [e He].
  pose proof (fetch_extract_fails E w feed Hfeed Hbozo latest older Hentries
                Hnew e He) as Hf.
  rewrite (process_no_article _ _ _ Hf). cbn [db trace].
  eexists. split; [rewrite <- app_assoc; reflexivity|].
  split; [reflexivity|]. split; [|reflexivity].
  cbn [logged flat_map app]. right. now left.
Qed.

Lemma process_new_articles_extraction_failure_witness :
  exists t,
    process_new_articles Scenario.env_unreachable_page blank =
    (Ok NoNewArticles, mkWorld (db blank) t) /\
    In ("Failed to extract content from: " ++ Scenario.L2) (logged ERROR t).
Proof.
  destruct (process_new_articles_extraction_failure
              Scenario.env_unreachable_page blank
              (mkFeed false [Scenario.entry2; Scenario.entry1])
              Scenario.entry2 [Scenario.entry1]
              eq_refl eq_refl eq_refl eq_refl eq_refl)
    as (t & Hrun & _ & Hlog & _).
  exists t. split; [exact Hrun|exact Hlog].
Defined.

(** C2 as stated fails: with an entry whose link is new and a page that
    cannot be fetched, the run reports [no_new_articles], not an error. *)
Lemma process_new_articles_extraction_failure_not_error :
  has_link (db blank) Scenario.L2 = false /\
  extractor_result Scenario.env_unreachable_page Scenario.L2 = Ok None /\
  fst (process_new_articles Scenario.env_unreachable_page blank) = Ok NoNewArticles /\
  ~ (exists m,
        fst (process_new_articles Scenario.env_unreachable_page blank)
        = Ok (Error m)).
Proof.
  repeat split.
  intros [m H]. vm_compute in H. discriminate H.
Qed.

(** ** C5: the summary cannot be generated *)

Lemma updated_keeps E article_id summary d r :
  In r (rows d) ->
  exists r',
    In r' (rows (updated E article_id summary d)) /\
    id r' = id r /\ article_link r' = article_link r /\ content r' = content r.
Proof.
  intros Hr. unfold updated. cbn [rows].
  exists (if id r =? article_id then set_summary E summary r else r).
  split.
  - now apply (in_map (fun r => if id r =? article_id
                                then set_summary E summary r else r)).
  - destruct (id r =? article_id); repeat split.
Qed.

(** C5.  When [fetch_latest_article] has inserted an article and the
    Summarizer Adapter returns [None] for its content, [process_new_articles]
    returns the status [error] with the message "Failed to generate
    summary" (the wording of the specification up to letter case); the
    table is the one left by the insert, one row longer than before the
    run; the row of the article is in it with a NULL summary, and
    [get_articles_without_summary] lists it. *)
Theorem process_new_articles_summary_failure :
  forall E w art w1,
    fetch_latest_article E w = (Ok (Some art), w1) ->
    summarizer_result E (Some (a_content art)) = Ok None ->
    exists t pending,
      process_new_articles E w =
      (Ok (Error "Failed to generate summary"),
       mkWorld (db w1) (trace w1 ++ t)) /\
      status (Error "Failed to generate summary") = "error" /\
      lower "Failed to generate summary" = "failed to generate summary" /\
      length (rows (db w1)) = S (length (rows (db w))) /\
      (exists r,
          In r (rows (db w1)) /\ id r = a_id art /\
          article_link r = a_link art /\ content r = Some (a_content art) /\
          ai_summary r = None) /\
      fst (get_articles_without_summary (mkWorld (db w1) (trace w1 ++ t)))
      = Ok pending /\
      In (a_id art, a_title art, Some (a_content art), a_link art) pending.
Proof.
  intros E w art w1 Hf Hs.
  destruct (summarize_run E (Some (a_content art))) as (a & t & Ha & Hl).
  rewrite Ha in Hs. injection Hs as ->.
  rewrite (process_article _ _ _ _ _ _ Hf Hl). cbn [truthy_opt].
  destruct (fetch_some_inv _ _ _ _ Hf) as (Hdb & _ & _).
  eexists _, _. split; [reflexivity|].
  split; [reflexivity|]. split; [reflexivity|].
  rewrite Hdb. cbn [rows]. split; [rewrite length_app; simpl; lia|].
  split.
  - exists (row_of E art). split; [apply in_or_app; right; now left|].
    repeat split.
  - unfold get_articles_without_summary. unfold_monad. cbn [fst db rows].
    split; [reflexivity|].
    apply (in_map (fun r => (id r, title r, content r, article_link r))
                  _ (row_of E art)).
    apply filter_In. split; [apply in_or_app; right; now left|reflexivity].
Qed.

Lemma process_new_articles_summary_failure_witness :
  exists w2,
    process_new_articles Scenario.env_no_summary blank =
    (Ok (Error "Failed to generate summary"), w2) /\
    exists r,
      In r (rows (db w2)) /\ article_link r = Scenario.L1 /\ ai_summary r = None.
Proof.
  destruct (process_new_articles_summary_failure
              Scenario.env_no_summary blank
              (mkNewArticle 1 "Qubits at scale" "A. Author"
                            "Wed, 01 Jan 2025 05:00:00 GMT" Scenario.L1
                            "Body of the page")
              (snd (fetch_latest_article Scenario.env_no_summary blank))
              eq_refl eq_refl)
    as (t & pending & Hrun & _ & _ & _ & (r & Hr & _ & Hlink & _ & Hsum) & _).
  eexists. split; [exact Hrun|].
  exists r. repeat split; assumption.
Defined.

(** ** C10: a page without text *)

Lemma process_after_insert E w art w1 :
  fetch_latest_article E w = (Ok (Some art), w1) ->
  exists r w2 t,
    process_new_articles E w = (Ok r, w2) /\
    map article_link (rows (db w2)) = map article_link (rows (db w1)) /\
    (forall x, In x (rows (db w1)) ->
               exists x', In x' (rows (db w2)) /\ id x' = id x /\
                          article_link x' = article_link x /\
                          content x' = content x) /\
    trace w2 = (trace w1 ++
                Log INFO ("Processing new article: " ++ a_title art) :: t)%list /\
    (create_session E = Ok tt ->
     submitted t = [make_prompt (prompt_content (a_content art))]).
Proof.
  intros Hf.
  destruct (summarize_logs_only E (Some (a_content art))) as (a & t & Hl).
  rewrite (process_article _ _ _ _ _ _ Hf Hl).
  destruct (truthy_opt a); eexists _, _, _; (split; [reflexivity|]); cbn [db trace].
  - split; [apply update_rows_links|]. split; [intros x; apply updated_keeps|].
    split; [reflexivity|]. intros Hs.
    rewrite submitted_app, (summarize_logs_submitted _ _ _ _ Hs Hl). reflexivity.
  - split; [reflexivity|]. split; [intros x Hx; now exists x|].
    split; [reflexivity|]. intros Hs.
    rewrite submitted_app, (summarize_logs_submitted _ _ _ _ Hs Hl). reflexivity.
Qed.

(** C10.  When the latest entry is new and its page downloads and parses
    with an empty text, the Content Extractor Adapter returns a record
    (not [None]) whose content is "No Content", with "No Title", "Unknown
    Author" and today's date for a missing title, author list and date;
    the run leaves in the table a row for the link whose content is "No
    Content", and, when the session is created, hands the runner exactly
    one prompt, built around "No Content". *)
Theorem empty_body_is_no_content :
  forall E w feed latest older page,
    feedparser_parse E rss_url = Ok feed ->
    bozo feed = false ->
    entries feed = latest :: older ->
    has_link (db w) (get (e_link latest) "") = false ->
    newspaper_article E (get (e_link latest) "") = Ok page ->
    p_text page = "" ->
    (exists data,
        extractor_result E (get (e_link latest) "") = Ok (Some data) /\
        d_content data = "No Content" /\
        (p_title page = "" -> d_title data = "No Title") /\
        (p_authors page = [] -> d_authors data = "Unknown Author") /\
        (p_publish_date page = None -> d_publish_date data = date_today E)) /\
    (exists r,
        In r (rows (db (snd (process_new_articles E w)))) /\
        article_link r = get (e_link latest) "" /\
        content r = Some "No Content") /\
    (create_session E = Ok tt ->
     submitted (trace (snd (process_new_articles E w))) =
     (submitted (trace w) ++ [make_prompt "No Content"])%list).
Proof.
  intros E w feed latest older page Hfeed Hbozo Hentries Hnew Hpage Htext.
  split; [|].
  - eexists. unfold extractor_result. rewrite (extract_ok_run _ _ _ _ Hpage).
    split; [reflexivity|]. cbn [d_content d_title d_authors d_publish_date].
    split; [now rewrite Htext|].
    split; [intros ->; reflexivity|].
    split; [intros ->; reflexivity|intros ->; reflexivity].
  - pose proof (fetch_new E w feed Hfeed Hbozo latest older Hentries Hnew page
                  Hpage) as Hf.
    cbv zeta in Hf. rewrite Htext in Hf.
    change (or_else "" "No Content") with "No Content" in Hf.
    destruct (process_after_insert _ _ _ _ Hf)
      as (r & w2 & t & Hrun & _ & Hkeep & Htrace & Hsub).
    rewrite Hrun. cbn [snd]. split.
    + destruct (Hkeep (mkRow (next_rowid (db w))
                         (get (e_title latest) (or_else (p_title page) "No Title"))
                         (Some (get (e_author latest)
                                  match p_authors page with
                                  | [] => "Unknown Author"
                                  | _ :: _ => join ", " (p_authors page)
                                  end))
                         (Some (get (e_published latest)
                                  match p_publish_date page with
                                  | Some d => d
                                  | None => date_today E
                                  end))
                         (get (e_link latest) "") (Some "No Content") None
                         (current_timestamp E) (current_timestamp E)))
        as (x' & Hin & _ & Hlink & Hcontent).
      { cbn [db rows]. apply in_or_app. right. now left. }
      exists x'. repeat split; assumption.
    + intros Hs. rewrite Htrace. cbn [trace a_title a_content].
      rewrite !submitted_app. cbn [submitted flat_map app].
      rewrite app_nil_r.
      change (flat_map _ t) with (submitted t). rewrite (Hsub Hs).
      reflexivity.
Qed.

Lemma empty_body_is_no_content_witness :
  (exists r,
      In r (rows (db (snd (process_new_articles Scenario.env_empty_page blank)))) /\
      article_link r = Scenario.L2 /\ content r = Some "No Content") /\
  submitted (trace (snd (process_new_articles Scenario.env_empty_page blank))) =
  [make_prompt "No Content"].
Proof.
  destruct (empty_body_is_no_content
              Scenario.env_empty_page blank
              (mkFeed false [Scenario.entry2; Scenario.entry1])
              Scenario.entry2 [Scenario.entry1] Scenario.empty_page
              eq_refl eq_refl eq_refl eq_refl eq_refl eq_refl)
    as (_ & Hrow & Hsub).
  split; [exact Hrow|exact (Hsub eq_refl)].
Defined.

(** ** C1: two runs in succession *)

Lemma has_link_same_links d d' link :
  map article_link (rows d') = map article_link (rows d) ->
  has_link d' link = has_link d link.
Proof.
  intros H. destruct (has_link d link) eqn:Hd.
  - apply has_link_In. rewrite H. now apply has_link_In.
  - apply has_link_false. rewrite H. now apply has_link_false.
Qed.

Lemma process_none_path E w t :
  fetch_latest_article E w = (Ok None, mkWorld (db w) (trace w ++ t)) ->
  process_new_articles E w =
  (Ok NoNewArticles,
   mkWorld (db w) (trace w ++ t ++ [Log INFO "No new articles to process"])).
Proof.
  intros H. rewrite (process_no_article _ _ _ H). cbn [db trace].
  now rewrite <- app_assoc.
Qed.

(** A run whose latest entry is already in the table. *)
Lemma process_duplicate E w feed latest older :
  feedparser_parse E rss_url = Ok feed ->
  bozo feed = false ->
  entries feed = latest :: older ->
  has_link (db w) (get (e_link latest) "") = true ->
  process_new_articles E w =
  (Ok NoNewArticles,
   mkWorld (db w)
     (trace w ++
        [FeedParse rss_url;
         Log INFO ("Article already exists: " ++ get (e_link latest) "");
         Log INFO "No new articles to process"])).
Proof.
  intros Hfeed Hbozo Hentries Hl.
  now rewrite (process_none_path _ _ _
                 (fetch_duplicate E w feed Hfeed Hbozo latest older Hentries Hl)).
Qed.

(** The second of two runs over the same feed and the same pages. *)
Lemma second_run E1 E2 w0 :
  feedparser_parse E2 rss_url = feedparser_parse E1 rss_url ->
  (forall url, newspaper_article E2 url = newspaper_article E1 url) ->
  exists r1 w1 t2,
    process_new_articles E1 w0 = (Ok r1, w1) /\
    process_new_articles E2 w1 =
    (Ok NoNewArticles, mkWorld (db w1) (trace w1 ++ t2)) /\
    (length (rows (db w1)) <= S (length (rows (db w0))))%nat.
Proof.
  intros Hfeed2 Hpage2.
  destruct (feedparser_parse E1 rss_url) as [feed|e] eqn:Hfeed.
  2:{ pose proof (fetch_feed_raises E1 w0 e Hfeed) as H1.
      apply process_none_path in H1. rewrite H1. eexists _, _, _.
      split; [reflexivity|].
      split; [|cbn [db]; lia].
      apply process_none_path. exact (fetch_feed_raises E2 _ e Hfeed2). }
  destruct (bozo feed) eqn:Hbozo.
  { pose proof (fetch_bozo E1 w0 feed Hfeed Hbozo) as H1.
    apply process_none_path in H1. rewrite H1. eexists _, _, _.
    split; [reflexivity|].
    split; [|cbn [db]; lia].
    apply process_none_path. exact (fetch_bozo E2 _ feed Hfeed2 Hbozo). }
  destruct (entries feed) as [|latest older] eqn:Hentries.
  { pose proof (fetch_no_entries E1 w0 feed Hfeed Hbozo Hentries) as H1.
    apply process_none_path in H1. rewrite H1. eexists _, _, _.
    split; [reflexivity|].
    split; [|cbn [db]; lia].
    apply process_none_path.
    exact (fetch_no_entries E2 _ feed Hfeed2 Hbozo Hentries). }
  destruct (has_link (db w0) (get (e_link latest) "")) eqn:Hl.
  { rewrite (process_duplicate E1 w0 feed latest older Hfeed Hbozo Hentries Hl).
    eexists _, _, _. split; [reflexivity|].
    split; [|cbn [db]; lia].
    apply (process_duplicate E2 _ feed latest older Hfeed2 Hbozo Hentries).
    exact Hl. }
  destruct (newspaper_article E1 (get (e_link latest) "")) as [page|e] eqn:Hp.
  - pose proof (fetch_new E1 w0 feed Hfeed Hbozo latest older Hentries Hl page Hp)
      as Hf.
    cbv zeta in Hf.
    destruct (process_after_insert _ _ _ _ Hf) as (r & w1 & t & Hrun & Hlinks & _).
    rewrite Hrun. cbn [db rows] in Hlinks.
    assert (Hdup : has_link (db w1) (get (e_link latest) "") = true).
    { apply has_link_In. rewrite Hlinks, map_app. apply in_or_app. right. now left. }
    eexists _, _, _. split; [reflexivity|].
    split.
    + exact (process_duplicate E2 w1 feed latest older Hfeed2 Hbozo Hentries Hdup).
    + rewrite <- (length_map article_link (rows (db w1))), Hlinks, length_map,
        length_app. simpl. lia.
  - pose proof (fetch_extract_fails E1 w0 feed Hfeed Hbozo latest older Hentries
                  Hl e Hp) as H1.
    apply process_none_path in H1. rewrite H1. eexists _, _, _.
    split; [reflexivity|].
    split; [|cbn [db]; lia].
    apply process_none_path.
    rewrite <- Hpage2 in Hp.
    apply (fetch_extract_fails E2 _ feed Hfeed2 Hbozo latest older Hentries);
      [exact Hl|exact Hp].
Qed.

(** C1.  Two runs in succession over the same feed document and the same
    pages: the second one returns the status [no_new_articles] and leaves
    the table as the first one left it, and the table has at most one row
    more than before the first run.  And a run whose latest entry has a
    link that is already in the table returns [no_new_articles], leaves
    the table as it was, and downloads no page: the existence check comes
    before the extraction. *)
Theorem process_new_articles_idempotent :
  forall E1 E2 w0,
    feedparser_parse E2 rss_url = feedparser_parse E1 rss_url ->
    (forall url, newspaper_article E2 url = newspaper_article E1 url) ->
    (exists r1,
        fst (process_new_articles E1 w0) = Ok r1 /\
        fst (process_new_articles E2 (snd (process_new_articles E1 w0)))
        = Ok NoNewArticles /\
        status NoNewArticles = "no_new_articles" /\
        db (snd (process_new_articles E2 (snd (process_new_articles E1 w0))))
        = db (snd (process_new_articles E1 w0)) /\
        (length (rows (db (snd (process_new_articles E2
                                   (snd (process_new_articles E1 w0))))))
         <= S (length (rows (db w0))))%nat) /\
    (forall feed latest older,
        feedparser_parse E1 rss_url = Ok feed ->
        bozo feed = false ->
        entries feed = latest :: older ->
        has_link (db w0) (get (e_link latest) "") = true ->
        fst (process_new_articles E1 w0) = Ok NoNewArticles /\
        db (snd (process_new_articles E1 w0)) = db w0 /\
        downloaded (trace (snd (process_new_articles E1 w0)))
        = downloaded (trace w0)).
Proof.
  intros E1 E2 w0 Hfeed2 Hpage2. split.
  - destruct (second_run E1 E2 w0 Hfeed2 Hpage2) as (r1 & w1 & t2 & H1 & H2 & Hlen).
    exists r1. rewrite H1. cbn [fst snd]. rewrite H2. cbn [fst snd db].
    repeat split. exact Hlen.
  - intros feed latest older Hfeed Hbozo Hentries Hl.
    rewrite (process_duplicate E1 w0 feed latest older Hfeed Hbozo Hentries Hl).
    cbn [fst snd db trace]. repeat split.
    rewrite downloaded_app. cbn [downloaded flat_map app]. apply app_nil_r.
Qed.

Lemma process_new_articles_idempotent_witness :
  fst (process_new_articles Scenario.env_ok
         (snd (process_new_articles Scenario.env_ok blank)))
  = Ok NoNewArticles /\
  (length (rows (db (snd (process_new_articles Scenario.env_ok
                            (snd (process_new_articles Scenario.env_ok blank))))))
   <= 1)%nat.
Proof.
  destruct (process_new_articles_idempotent Scenario.env_ok Scenario.env_ok blank
              eq_refl (fun _ => eq_refl))
    as ((r1 & _ & H2 & _ & _ & Hlen) & _).
  split; [exact H2|exact Hlen].
Defined.

(** ** C4: one pass of the Backlog Reconciler *)

Lemma summary_for_logs E c a t :
  logs_only (summarize_article_content E c) (Ok a) t -> summary_for E c = a.
Proof.
  intros H. unfold summary_for, summarizer_result. now rewrite (H blank).
Qed.

Lemma summarize_none_submitted E a t :
  logs_only (summarize_article_content E None) (Ok a) t -> submitted t = [].
Proof.
  intros H. specialize (H blank). revert H.
  unfold summarize_article_content. unfold_monad.
  destruct (create_session E) as [[]|e]; cbn [db trace blank app];
    intros H; inversion H; reflexivity.
Qed.

Lemma summarize_prompts E r a t :
  create_session E = Ok tt ->
  logs_only (summarize_article_content E (content r)) (Ok a) t ->
  submitted t = prompts_for r.
Proof.
  intros Hs Hl. unfold prompts_for. destruct (content r) as [c|].
  - exact (summarize_logs_submitted _ _ _ _ Hs Hl).
  - exact (summarize_none_submitted _ _ _ Hl).
Qed.

Lemma process_one_run E n r w :
  exists t,
    process_one E n (tuple_of r) w =
    (Ok (if unusable E r then n else n + 1),
     mkWorld (step_db E (db w) r) (trace w ++ t)) /\
    (create_session E = Ok tt -> submitted t = prompts_for r).
Proof.
  destruct (summarize_logs_only E (content r)) as (a & t & Hl).
  pose proof (summary_for_logs _ _ _ _ Hl) as Ha.
  unfold process_one, tuple_of, step_db, unusable. rewrite Ha.
  unfold bind at 1, logging_info at 1, emit at 1.
  unfold bind at 1. rewrite Hl. cbn [db trace].
  destruct (truthy_opt a); cbn [negb].
  - unfold bind at 1. rewrite update_article_summary_run.
    unfold_monad. cbn [db trace]. eexists. split.
    + unfold updated. rewrite <- !app_assoc. reflexivity.
    + intros Hs. rewrite !submitted_app.
      rewrite (summarize_prompts _ _ _ _ Hs Hl). cbn [submitted flat_map app].
      now rewrite app_nil_r.
  - unfold_monad. cbn [db trace]. eexists. split.
    + rewrite <- !app_assoc. reflexivity.
    + intros Hs. rewrite !submitted_app.
      rewrite (summarize_prompts _ _ _ _ Hs Hl). cbn [submitted flat_map app].
      now rewrite app_nil_r.
Qed.

Lemma process_all_run E (l : list Row) :
  forall n w,
  exists t,
    process_all E n (map tuple_of l) w =
    (Ok (n + Z.of_nat (length (filter (fun r => negb (unusable E r)) l))),
     mkWorld (fold_left (step_db E) l (db w)) (trace w ++ t)) /\
    (create_session E = Ok tt -> submitted t = flat_map prompts_for l).
Proof.
  induction l as [|r l IH]; intros n w.
  - exists []. cbn [map process_all filter length fold_left flat_map].
    split; [|reflexivity].
    unfold ret. rewrite world_eta. f_equal. f_equal. lia.
  - cbn [map process_all fold_left flat_map filter].
    destruct (process_one_run E n r w) as (t1 & H1 & Hs1).
    unfold bind. rewrite H1.
    destruct (IH (if unusable E r then n else n + 1)
                 (mkWorld (step_db E (db w) r) (trace w ++ t1)))
      as (t2 & H2 & Hs2).
    rewrite H2. cbn [db trace]. exists (t1 ++ t2)%list. split.
    + rewrite <- app_assoc. f_equal. f_equal.
      destruct (unusable E r); cbn [negb length]; lia.
    + intros Hs. now rewrite submitted_app, (Hs1 Hs), (Hs2 Hs).
Qed.

(** The loop, row by row. *)

Lemma step_db_rows E d x : rows (step_db E d x) = map (row_step E x) (rows d).
Proof.
  unfold step_db, row_step, updated.
  destruct (unusable E x); cbn [negb andb rows].
  - now rewrite map_id.
  - apply map_ext. intros r. reflexivity.
Qed.

Lemma fold_step_rows E l :
  forall d,
    rows (fold_left (step_db E) l d) =
    map (fun r => fold_left (fun r x => row_step E x r) l r) (rows d).
Proof.
  induction l as [|x l IH]; intros d; cbn [fold_left].
  - now rewrite map_id.
  - now rewrite IH, step_db_rows, map_map.
Qed.

Lemma row_step_id E x r : id (row_step E x r) = id r.
Proof.
  unfold row_step. now destruct (negb (unusable E x) && (id r =? id x)).
Qed.

Lemma row_step_other E x r : id x <> id r -> row_step E x r = r.
Proof.
  intros H. unfold row_step.
  destruct (Z.eqb_spec (id r) (id x)); [congruence|].
  now rewrite andb_false_r.
Qed.

Lemma row_fold_other E l :
  forall r,
    (forall x, In x l -> id x <> id r) ->
    fold_left (fun r x => row_step E x r) l r = r.
Proof.
  induction l as [|y l IH]; intros r H; cbn [fold_left]; [reflexivity|].
  rewrite row_step_other by (apply H; now left).
  apply IH. intros x Hx. apply H. now right.
Qed.

Lemma row_fold_own E l :
  forall x r,
    NoDup (map id l) -> In x l -> id x = id r ->
    fold_left (fun r x => row_step E x r) l r = row_step E x r.
Proof.
  induction l as [|y l IH]; intros x r Hnd Hx Hid; [contradiction|].
  cbn [map] in Hnd. inversion Hnd as [|? ? Hy Hnd']; subst.
  cbn [fold_left]. destruct Hx as [->|Hx].
  - apply row_fold_other. intros z Hz Heq. apply Hy.
    rewrite row_step_id in Heq. rewrite Hid, <- Heq. now apply in_map.
  - rewrite row_step_other.
    + now apply IH.
    + intros Heq. apply Hy. rewrite Heq, <- Hid. now apply in_map.
Qed.

(** The pending rows of a table with a primary key have distinct ids. *)
Lemma pending_ids_unique (table : list Row) :
  NoDup (map id table) -> NoDup (map id (filter without_summary table)).
Proof.
  intros Hnd. induction table as [|r table IH]; cbn [map filter]; [constructor|].
  cbn [map] in Hnd. apply NoDup_cons_iff in Hnd as [Hr Hnd].
  destruct (without_summary r); cbn [map]; [|now apply IH].
  apply NoDup_cons_iff. split; [|now apply IH].
  intros Hin. apply Hr. apply in_map_iff in Hin as (x & Hx & Hin).
  apply filter_In in Hin as [Hin _]. rewrite <- Hx. now apply in_map.
Qed.

(** Two rows of such a table with the same id are the same row. *)
Lemma same_id_same_row (table : list Row) (x y : Row) :
  NoDup (map id table) -> In x table -> In y table -> id x = id y -> x = y.
Proof.
  intros Hnd. induction table as [|r table IH]; intros Hx Hy Heq; [contradiction|].
  cbn [map] in Hnd. apply NoDup_cons_iff in Hnd as [Hr Hnd].
  destruct Hx as [->|Hx], Hy as [->|Hy]; try reflexivity.
  - exfalso. apply Hr. rewrite Heq. now apply in_map.
  - exfalso. apply Hr. rewrite <- Heq. now apply in_map.
  - now apply IH.
Qed.

Lemma reconcile_rows E (l : list Row) :
  NoDup (map id l) ->
  map (fun r => fold_left (fun r x => row_step E x r) (filter without_summary l) r) l
  = map (reconciled E) l.
Proof.
  intros Hnd. apply map_ext_in. intros r Hr. unfold reconciled.
  destruct (without_summary r) eqn:Hp; cbn [andb].
  - rewrite (row_fold_own E _ r r).
    + unfold row_step. now rewrite Z.eqb_refl, andb_true_r.
    + now apply pending_ids_unique.
    + apply filter_In. now split.
    + reflexivity.
  - apply row_fold_other. intros x Hx Heq.
    apply filter_In in Hx as [Hx Hpx].
    rewrite (same_id_same_row l x r Hnd Hx Hr Heq) in Hpx. congruence.
Qed.

(** C4, as the code has it.  In a table whose ids are pairwise distinct,
    with [N] pending rows of which the set [S] gets from the Summarizer
    Adapter nothing that [if summary:] accepts ([None] or the empty
    string), one pass returns [processed_count = N - |S|] and
    [total_articles = N]; every row of [S] is in the table afterwards as it
    was, still pending; every other pending row has got its summary, and
    the complete rows are as they were ([reconciled]); when the session
    is created, the prompts handed to the runner are those of the pending
    rows, one for each row that has a content, in the order of the
    table: no row is skipped after a failure. *)
Theorem process_existing_articles_partial_failure :
  forall E w,
    ids_unique (db w) ->
    exists w',
      process_existing_articles_without_summary E w =
      (Ok (Processed
             (Z.of_nat (length (filter without_summary (rows (db w)))) -
              Z.of_nat (length (filter (unusable E)
                                  (filter without_summary (rows (db w))))))
             (Z.of_nat (length (filter without_summary (rows (db w)))))),
       w') /\
      rows (db w') = map (reconciled E) (rows (db w)) /\
      (forall r,
          In r (filter (unusable E) (filter without_summary (rows (db w)))) ->
          In r (rows (db w')) /\ without_summary r = true) /\
      (create_session E = Ok tt ->
       submitted (trace w') =
       (submitted (trace w) ++
        flat_map prompts_for (filter without_summary (rows (db w))))%list).
Proof.
  intros E w Hids.
  destruct (process_all_run E (filter without_summary (rows (db w))) 0 w)
    as (t & Hrun & Hsub).
  unfold tuple_of in Hrun.
  unfold process_existing_articles_without_summary, get_articles_without_summary.
  unfold try_except, bind at 1. unfold bind at 1, read_db, ret at 1.
  unfold bind at 1. rewrite Hrun. unfold ret.
  assert (Hrows :
            rows (fold_left (step_db E) (filter without_summary (rows (db w))) (db w))
            = map (reconciled E) (rows (db w))).
  { rewrite fold_step_rows. now apply reconcile_rows. }
  eexists. split; [|split; [|split]].
  - f_equal. f_equal. rewrite length_map. f_equal.
    pose proof (filter_length (unusable E) (filter without_summary (rows (db w)))).
    lia.
  - exact Hrows.
  - intros r Hr. cbn [db]. rewrite Hrows.
    apply filter_In in Hr as [Hr Hu]. apply filter_In in Hr as [Hr Hp].
    split; [|exact Hp].
    apply in_map_iff. exists r. split; [|exact Hr].
    unfold reconciled. now rewrite Hu, andb_false_r.
  - intros Hs. cbn [trace]. now rewrite submitted_app, (Hsub Hs).
Qed.

Lemma process_existing_articles_partial_failure_witness :
  ids_unique (db Scenario.table) /\
  fst (process_existing_articles_without_summary Scenario.env_partial Scenario.table)
  = Ok (Processed 2 3) /\
  In Scenario.row2
     (rows (db (snd (process_existing_articles_without_summary
                       Scenario.env_partial Scenario.table)))).
Proof.
  assert (H : ids_unique (db Scenario.table)).
  { unfold ids_unique. simpl. repeat constructor; simpl; intuition discriminate. }
  split; [exact H|].
  destruct (process_existing_articles_partial_failure
              Scenario.env_partial Scenario.table H)
    as (w' & Hrun & _ & Hkeep & _).
  rewrite Hrun. cbn [fst snd]. split; [vm_compute; reflexivity|].
  apply (Hkeep Scenario.row2). vm_compute. now left.
Defined.

(** C4 as stated fails when a failure of the adapter means that it returns
    [None]: with one pending row and a service that answers with an empty
    text, the adapter returns the empty string, so [S] is empty and [N - |S|]
    is 1, and the pass reports [processed_count = 0]. *)
Lemma process_existing_articles_empty_summary_not_counted :
  filter without_summary (rows (db Scenario.one_pending)) = [Scenario.row1] /\
  summarizer_result Scenario.env_empty_summary (content Scenario.row1)
  = Ok (Some "") /\
  filter (fails Scenario.env_empty_summary)
         (filter without_summary (rows (db Scenario.one_pending))) = [] /\
  fst (process_existing_articles_without_summary
         Scenario.env_empty_summary Scenario.one_pending)
  = Ok (Processed 0 1) /\
  Processed 0 1 <> Processed (1 - 0) 1.
Proof.
  split; [reflexivity|]. split; [vm_compute; reflexivity|].
  split; [vm_compute; reflexivity|]. split; [vm_compute; reflexivity|].
  discriminate.
Qed.

(** The primary key is kept by both writes, so the hypothesis of C4 holds
    in every table that the pipeline builds. *)
Lemma writes_keep_ids_unique E w :
  ids_unique (db w) ->
  (forall t a p link c, ids_unique (db (snd (save_article E t a p link c w)))) /\
  (forall article_id summary,
      ids_unique (db (snd (update_article_summary E article_id summary w)))).
Proof.
  intros H. unfold ids_unique in *. split.
  - intros t a p link c. destruct (has_link (db w) link) eqn:Hl.
    + now rewrite save_article_duplicate_run.
    + rewrite save_article_fresh_run by assumption. cbn [snd db rows].
      rewrite map_app. cbn [map id].
      apply NoDup_app; [assumption|repeat constructor; simpl; tauto|].
      intros x Hx [<-|[]]. now apply (next_rowid_fresh (db w)).
  - intros article_id summary. rewrite update_article_summary_run.
    cbn [snd db rows]. now rewrite update_rows_ids.
Qed.

(** * Further properties of the pipeline *)

(** ** What a run of [process_new_articles] does to the table *)

Lemma updated_fresh_rows E article_id summary (l : list Row) :
  ~ In article_id (map id l) ->
  map (fun r => if id r =? article_id then set_summary E summary r else r) l = l.
Proof.
  intros H. rewrite <- (map_id l) at 2. apply map_ext_in. intros r Hr.
  destruct (Z.eqb_spec (id r) article_id) as [Heq|]; [|reflexivity].
  exfalso. apply H. rewrite <- Heq. now apply in_map.
Qed.

(** The report of a run tells what happened to the table.  The run
    returns a report (no exception escapes); with [no_new_articles] the
    table is as it was; with [success] exactly one row was appended, for a
    link that was not in the table, and it carries the summary of the
    report, which is not empty; with [error] exactly one row was appended,
    without summary.  In every case the rows that were in the table are as
    they were. *)
Theorem process_new_articles_report :
  forall E w,
    exists r w',
      process_new_articles E w = (Ok r, w') /\
      match r with
      | NoNewArticles => db w' = db w
      | Success a s =>
          truthy s = true /\
          has_link (db w) (a_link a) = false /\
          rows (db w') = (rows (db w) ++ [set_summary E s (row_of E a)])%list
      | Error _ =>
          exists a,
            has_link (db w) (a_link a) = false /\
            rows (db w') = (rows (db w) ++ [row_of E a])%list
      end.
Proof.
  intros E w.
  destruct (fetch_cases E w) as [(t & Hf & _)|(art & t & Hf & Hl & Hid & _)].
  - rewrite (process_none_path _ _ _ Hf). eexists _, _. split; reflexivity.
  - destruct (summarize_logs_only E (Some (a_content art))) as (a & ts & Hs).
    rewrite (process_article _ _ _ _ _ _ Hf Hs).
    destruct (truthy_opt a) eqn:Ha; eexists _, _; (split; [reflexivity|]).
    + destruct a as [s|]; [|discriminate]. cbn [truthy_opt get] in *.
      split; [exact Ha|]. split; [exact Hl|].
      unfold updated. cbn [db rows]. rewrite map_app.
      rewrite updated_fresh_rows
        by (rewrite Hid; apply next_rowid_fresh).
      cbn [map row_of id]. now rewrite Z.eqb_refl.
    + exists art. split; [exact Hl|reflexivity].
Qed.

(** ** Insert and lookup *)

(** After [save_article] has been called for a link, [article_exists]
    finds the link, whether the call inserted a row or met a duplicate;
    the call returns an id exactly when the link was not in the table, and
    that id is positive and greater than every id of the table; a second
    call for the same link returns [None] and leaves the table as the first
    one left it. *)
Theorem save_article_then_exists :
  forall E t a p link c w,
    fst (article_exists link (snd (save_article E t a p link c w))) = Ok true /\
    (has_link (db w) link = true -> fst (save_article E t a p link c w) = Ok None) /\
    (has_link (db w) link = false ->
     exists i,
       fst (save_article E t a p link c w) = Ok (Some i) /\
       0 < i /\
       (forall r, In r (rows (db w)) -> id r < i)) /\
    (forall t' a' p' c',
        fst (save_article E t' a' p' link c' (snd (save_article E t a p link c w)))
        = Ok None /\
        db (snd (save_article E t' a' p' link c'
                   (snd (save_article E t a p link c w))))
        = db (snd (save_article E t a p link c w))).
Proof.
  intros E t a p link c w.
  assert (Hafter : has_link (db (snd (save_article E t a p link c w))) link = true).
  { destruct (has_link (db w) link) eqn:Hl.
    - now rewrite save_article_duplicate_run.
    - rewrite save_article_fresh_run by assumption. cbn [snd db].
      apply has_link_In. cbn [rows]. rewrite map_app.
      apply in_or_app. right. now left. }
  split; [|split; [|split]].
  - unfold article_exists. unfold_monad. cbn [fst]. now rewrite Hafter.
  - intros Hl. now rewrite save_article_duplicate_run.
  - intros Hl. rewrite save_article_fresh_run by assumption.
    exists (next_rowid (db w)). split; [reflexivity|].
    split; [apply next_rowid_pos|].
    intros r Hr. unfold next_rowid.
    pose proof (fold_max_upper (map id (rows (db w))) (Z.max 0 (seq (db w)))
                  (id r) (in_map id _ _ Hr)).
    lia.
  - intros t' a' p' c'. now rewrite (save_article_duplicate_run E t' a' p' link c' _ Hafter).
Qed.

Lemma save_article_then_exists_witness :
  exists i,
    fst (save_article Scenario.env_ok "Title" "Author" "2025-02-01"
                      "https://news.mit.edu/2025/new" "Body" Scenario.table)
    = Ok (Some i) /\ 4 < i.
Proof.
  destruct (save_article_then_exists Scenario.env_ok "Title" "Author" "2025-02-01"
              "https://news.mit.edu/2025/new" "Body" Scenario.table)
    as (_ & _ & Hnew & _).
  destruct (Hnew eq_refl) as (i & Hi & _ & Hgt).
  exists i. split; [exact Hi|].
  apply (Hgt Scenario.row4). cbn. tauto.
Defined.

(** ** One pass of the reconciler, as a whole *)

Lemma reconcile_run E w :
  exists t,
    process_existing_articles_without_summary E w =
    (Ok (Processed
           (Z.of_nat (length (filter (fun r => negb (unusable E r))
                                (filter without_summary (rows (db w))))))
           (Z.of_nat (length (filter without_summary (rows (db w)))))),
     mkWorld (fold_left (step_db E) (filter without_summary (rows (db w))) (db w))
             (trace w ++ t)) /\
    (create_session E = Ok tt ->
     submitted t = flat_map prompts_for (filter without_summary (rows (db w)))).
Proof.
  destruct (process_all_run E (filter without_summary (rows (db w))) 0 w)
    as (t & Hrun & Hsub).
  unfold tuple_of in Hrun.
  unfold process_existing_articles_without_summary, get_articles_without_summary.
  unfold try_except, bind at 1. unfold bind at 1, read_db, ret at 1.
  unfold bind at 1. rewrite Hrun. unfold ret.
  exists t. split; [|exact Hsub]. now rewrite length_map.
Qed.

Lemma row_fold_frame E l :
  forall r,
    id (fold_left (fun r x => row_step E x r) l r) = id r /\
    article_link (fold_left (fun r x => row_step E x r) l r) = article_link r.
Proof.
  induction l as [|x l IH]; intros r; cbn [fold_left]; [now split|].
  destruct (IH (row_step E x r)) as [-> ->]. unfold row_step.
  now destruct (negb (unusable E x) && (id r =? id x)).
Qed.

(** The whole pipeline keeps the two keys of the table: when the links are
    pairwise distinct before a run of [process_new_articles] or a pass of
    [process_existing_articles_without_summary], they are after it, and
    the same holds for the ids. *)
Theorem pipeline_keeps_keys :
  forall E w,
    links_unique (db w) ->
    ids_unique (db w) ->
    (links_unique (db (snd (process_new_articles E w))) /\
     ids_unique (db (snd (process_new_articles E w)))) /\
    (links_unique (db (snd (process_existing_articles_without_summary E w))) /\
     ids_unique (db (snd (process_existing_articles_without_summary E w)))).
Proof.
  intros E w Hlinks Hids. unfold links_unique, ids_unique in *. split.
  - destruct (fetch_cases E w) as [(t & Hf & _)|(art & t & Hf & Hl & Hid & _)].
    + rewrite (process_none_path _ _ _ Hf). now split.
    + destruct (process_after_insert _ _ _ _ Hf)
        as (r & w2 & t2 & Hrun & Hlk & Hkeep & _).
      rewrite Hrun. cbn [snd]. cbn [db rows] in Hlk.
      assert (Hidmap : map id (rows (db w2))
                       = (map id (rows (db w)) ++ [a_id art])%list).
      { destruct (summarize_logs_only E (Some (a_content art))) as (a & ts & Hs).
        rewrite (process_article _ _ _ _ _ _ Hf Hs) in Hrun.
        destruct (truthy_opt a); inversion Hrun; subst; cbn [db rows updated].
        - now rewrite update_rows_ids, map_app.
        - now rewrite map_app. }
      split.
      * rewrite Hlk, map_app. cbn [map row_of article_link].
        apply has_link_false in Hl.
        apply NoDup_app; [assumption|repeat constructor; simpl; tauto|].
        intros x Hx [<-|[]]. contradiction.
      * rewrite Hidmap.
        apply NoDup_app; [assumption|repeat constructor; simpl; tauto|].
        intros x Hx [<-|[]]. rewrite Hid in Hx. now apply (next_rowid_fresh (db w)).
  - destruct (reconcile_run E w) as (t & Hrun & _). rewrite Hrun. cbn [snd db].
    rewrite fold_step_rows, !map_map. split.
    + erewrite map_ext; [exact Hlinks|]. intros r. apply row_fold_frame.
    + erewrite map_ext; [exact Hids|]. intros r. apply row_fold_frame.
Qed.

Lemma pipeline_keeps_keys_witness :
  links_unique
    (db (snd (process_existing_articles_without_summary
                Scenario.env_partial Scenario.table))) /\
  ids_unique (db (snd (process_new_articles Scenario.env_ok Scenario.table))).
Proof.
  assert (Hl : links_unique (db Scenario.table)).
  { unfold links_unique. simpl. repeat constructor; simpl; intuition discriminate. }
  assert (Hi : ids_unique (db Scenario.table)).
  { unfold ids_unique. simpl. repeat constructor; simpl; intuition discriminate. }
  split.
  - exact (proj1 (proj2 (pipeline_keeps_keys Scenario.env_partial Scenario.table
                           Hl Hi))).
  - exact (proj2 (proj1 (pipeline_keeps_keys Scenario.env_ok Scenario.table Hl Hi))).
Defined.

Lemma reconciled_pending E r :
  without_summary (reconciled E r) = without_summary r && unusable E r.
Proof.
  unfold reconciled.
  destruct (without_summary r) eqn:Hp, (unusable E r) eqn:Hu; cbn [andb negb];
    try assumption.
  unfold unusable in Hu. unfold without_summary. cbn [set_summary ai_summary].
  destruct (summary_for E (content r)) as [s|]; cbn in Hu; [|discriminate].
  cbn [get]. unfold truthy in Hu. now destruct (String.eqb s "").
Qed.

Lemma pending_after_reconciled E (l : list Row) :
  filter without_summary (map (reconciled E) l)
  = filter (unusable E) (filter without_summary l).
Proof.
  induction l as [|r l IH]; [reflexivity|]. cbn [map filter].
  rewrite reconciled_pending, IH.
  destruct (without_summary r) eqn:Hp; cbn [andb filter]; [|reflexivity].
  destruct (unusable E r) eqn:Hu; [|reflexivity].
  unfold reconciled. now rewrite Hp, Hu.
Qed.

Lemma reconcile_rows_run E w :
  ids_unique (db w) ->
  rows (db (snd (process_existing_articles_without_summary E w)))
  = map (reconciled E) (rows (db w)).
Proof.
  intros Hids. destruct (reconcile_run E w) as (t & Hrun & _).
  rewrite Hrun. cbn [snd db]. rewrite fold_step_rows. now apply reconcile_rows.
Qed.

(** After one pass over a table with a primary key, the backlog is exactly
    the part of the former backlog for which the adapter gave nothing
    usable, in the same order; in particular, when the adapter gives a
    usable summary for every pending row, the pass reports [N] of [N] and
    [get_articles_without_summary] then returns the empty list. *)
Theorem backlog_after_pass :
  forall E w,
    ids_unique (db w) ->
    fst (get_articles_without_summary
           (snd (process_existing_articles_without_summary E w)))
    = Ok (map tuple_of
            (filter (unusable E) (filter without_summary (rows (db w))))) /\
    (forallb (fun r => negb (unusable E r)) (filter without_summary (rows (db w)))
     = true ->
     fst (process_existing_articles_without_summary E w)
     = Ok (Processed (Z.of_nat (length (filter without_summary (rows (db w)))))
                     (Z.of_nat (length (filter without_summary (rows (db w)))))) /\
     fst (get_articles_without_summary
            (snd (process_existing_articles_without_summary E w)))
     = Ok []).
Proof.
  intros E w Hids.
  assert (Hq : fst (get_articles_without_summary
                      (snd (process_existing_articles_without_summary E w)))
               = Ok (map tuple_of
                       (filter (unusable E)
                          (filter without_summary (rows (db w)))))).
  { unfold get_articles_without_summary. unfold_monad. cbn [fst].
    now rewrite (reconcile_rows_run E w Hids), pending_after_reconciled. }
  split; [exact Hq|]. intros Hall. split.
  - destruct (reconcile_run E w) as (t & Hrun & _). rewrite Hrun. cbn [fst].
    do 3 f_equal. clear Hrun Hq.
    induction (filter without_summary (rows (db w))) as [|r l IH];
      [reflexivity|].
    cbn [forallb] in Hall. apply andb_prop in Hall as [Hr Hl].
    cbn [filter]. rewrite Hr. cbn [length]. now rewrite (IH Hl).
  - rewrite Hq. f_equal. clear Hq.
    induction (filter without_summary (rows (db w))) as [|r l IH];
      [reflexivity|].
    cbn [forallb] in Hall. apply andb_prop in Hall as [Hr Hl].
    cbn [filter]. destruct (unusable E r); [discriminate Hr|]. now apply IH.
Qed.

Lemma backlog_after_pass_witness :
  fst (get_articles_without_summary
         (snd (process_existing_articles_without_summary
                 Scenario.env_partial Scenario.table)))
  = Ok [tuple_of Scenario.row2] /\
  fst (get_articles_without_summary
         (snd (process_existing_articles_without_summary
                 Scenario.env_ok Scenario.table)))
  = Ok [].
Proof.
  assert (Hi : ids_unique (db Scenario.table)).
  { unfold ids_unique. simpl. repeat constructor; simpl; intuition discriminate. }
  split.
  - rewrite (proj1 (backlog_after_pass Scenario.env_partial Scenario.table Hi)).
    vm_compute. reflexivity.
  - apply (proj2 (backlog_after_pass Scenario.env_ok Scenario.table Hi)).
    vm_compute. reflexivity.
Defined.

Lemma fold_step_unusable E (l : list Row) :
  forall d,
    forallb (unusable E) l = true -> fold_left (step_db E) l d = d.
Proof.
  induction l as [|x l IH]; intros d H; [reflexivity|].
  cbn [forallb] in H. apply andb_prop in H as [Hx Hl].
  cbn [fold_left]. unfold step_db at 2. rewrite Hx. now apply IH.
Qed.

(** A second pass with the same collaborators, right after a first one,
    finds as its backlog the rows that the first pass could not resolve,
    resolves none of them and leaves the table as it is: it reports
    [processed_count = 0] and [total_articles = |S|]. *)
Theorem second_pass_resolves_nothing :
  forall E w,
    ids_unique (db w) ->
    fst (process_existing_articles_without_summary E
           (snd (process_existing_articles_without_summary E w)))
    = Ok (Processed 0
            (Z.of_nat (length (filter (unusable E)
                                 (filter without_summary (rows (db w))))))) /\
    db (snd (process_existing_articles_without_summary E
               (snd (process_existing_articles_without_summary E w))))
    = db (snd (process_existing_articles_without_summary E w)).
Proof.
  intros E w Hids.
  pose proof (reconcile_rows_run E w Hids) as Hrows.
  set (w1 := snd (process_existing_articles_without_summary E w)) in *.
  destruct (reconcile_run E w1) as (t & Hrun & _). rewrite Hrun.
  cbn [fst snd db]. rewrite Hrows, pending_after_reconciled.
  set (S := filter (unusable E) (filter without_summary (rows (db w)))).
  assert (HS : forallb (unusable E) S = true).
  { apply forallb_forall. intros r Hr. now apply filter_In in Hr as [_ Hr]. }
  split.
  - do 3 f_equal.
    assert (Hnone : filter (fun r => negb (unusable E r)) S = []).
    { clear -HS. induction S as [|r l IH]; [reflexivity|].
      cbn [forallb] in HS. apply andb_prop in HS as [Hr Hl].
      cbn [filter]. rewrite Hr. cbn [negb]. now apply IH. }
    now rewrite Hnone.
  - now apply fold_step_unusable.
Qed.

Lemma second_pass_resolves_nothing_witness :
  fst (process_existing_articles_without_summary Scenario.env_partial
         (snd (process_existing_articles_without_summary
                 Scenario.env_partial Scenario.table)))
  = Ok (Processed 0 1).
Proof.
  assert (Hi : ids_unique (db Scenario.table)).
  { unfold ids_unique. simpl. repeat constructor; simpl; intuition discriminate. }
  rewrite (proj1 (second_pass_resolves_nothing Scenario.env_partial
                    Scenario.table Hi)).
  vm_compute. reflexivity.
Defined.

(** ** The stream of the runner *)

Lemma consume_events_pass pre rest end_exn :
  forallb passed_over pre = true ->
  consume_events (pre ++ rest) end_exn = consume_events rest end_exn.
Proof.
  induction pre as [|ev pre IH]; cbn [app forallb]; [reflexivity|].
  intros H. apply andb_prop in H as [Hev Hpre]. cbn [consume_events].
  rewrite (IH Hpre). unfold passed_over, no_parts in Hev.
  destruct (is_final_response ev); [|reflexivity].
  destruct (ev_content ev) as [[|part parts]|]; cbn in Hev;
    try discriminate; now destruct (ev_escalate ev).
Qed.

(** The adapter returns the text of the first part of the first final
    event that has parts, whatever comes after it in the stream: neither a
    later final event nor an exception that ends the stream changes the
    answer, and nothing is logged as an error.  Final events that have
    neither parts nor an escalation do not end the loop. *)
Theorem first_final_event_with_parts_wins :
  forall E text w pre ev post part parts,
    create_session E = Ok tt ->
    fst (run_async E (make_prompt (prompt_content text))) = (pre ++ ev :: post)%list ->
    forallb passed_over pre = true ->
    is_final_response ev = true ->
    ev_content ev = Some (part :: parts) ->
    fst (summarize_article_content E (Some text) w) = Ok part /\
    logged ERROR (trace (snd (summarize_article_content E (Some text) w)))
    = logged ERROR (trace w).
Proof.
  intros E text w pre ev post part parts Hs Hev Hpre Hf Hc.
  rewrite summarize_some_run by assumption.
  rewrite Hev, consume_events_pass by assumption.
  unfold try_except. cbn [consume_events]. rewrite Hf, Hc.
  unfold_monad. cbn [fst snd trace db]. split; [reflexivity|].
  rewrite !logged_app.
  destruct (len text >? max_content_length); cbn [logged flat_map app];
    now rewrite !app_nil_r.
Qed.

Lemma first_final_event_with_parts_wins_witness :
  fst (summarize_article_content Scenario.env_late_failure (Some "Body one") blank)
  = Ok (Some "A summary.").
Proof.
  apply (first_final_event_with_parts_wins Scenario.env_late_failure "Body one"
           blank [Scenario.intermediate; mkAgentEvent true None false None]
           (Scenario.final_text "A summary.")
           [Scenario.final_text "Another one."] (Some "A summary.") []);
    reflexivity.
Defined.

(** When every event of the stream is passed over, the adapter returns
    [None]: silently when the stream just ends, and with the exception
    logged as "Error generating summary: ..." when an exception ends it. *)
Theorem stream_without_answer :
  forall E text w,
    create_session E = Ok tt ->
    forallb passed_over (fst (run_async E (make_prompt (prompt_content text)))) = true ->
    fst (summarize_article_content E (Some text) w) = Ok None /\
    logged ERROR (trace (snd (summarize_article_content E (Some text) w)))
    = (logged ERROR (trace w) ++
       match snd (run_async E (make_prompt (prompt_content text))) with
       | Some e => [("Error generating summary: " ++ str_of_exn e)%string]
       | None => []
       end)%list.
Proof.
  intros E text w Hs Hall.
  rewrite summarize_some_run by assumption.
  rewrite <- (app_nil_r (fst (run_async E (make_prompt (prompt_content text))))).
  rewrite consume_events_pass by assumption.
  unfold try_except. cbn [consume_events].
  destruct (snd (run_async E (make_prompt (prompt_content text)))) as [e|];
    unfold_monad; cbn [fst snd trace db]; (split; [reflexivity|]);
    rewrite !logged_app;
    destruct (len text >? max_content_length); cbn [logged flat_map app];
    now rewrite ?app_nil_r.
Qed.

Lemma stream_without_answer_witness :
  fst (summarize_article_content Scenario.env_no_summary (Some "Body one") blank)
  = Ok None.
Proof.
  apply (stream_without_answer Scenario.env_no_summary "Body one" blank);
    reflexivity.
Defined.

(** ** A row without content *)

Lemma null_content_unusable E r : content r = None -> unusable E r = true.
Proof.
  intros Hr. unfold unusable, summary_for, summarizer_result. rewrite Hr.
  unfold summarize_article_content. unfold_monad.
  now destruct (create_session E) as [[]|e].
Qed.

(** For a content that is NULL the adapter returns [None] without calling
    the runner, and logs one error.  So a pass of
    [process_existing_articles_without_summary] over a table with a
    primary key never resolves a pending row whose content is NULL,
    whatever the service answers: after the pass the row is in the table
    as it was, [get_articles_without_summary] still lists it, and the pass
    has resolved fewer rows than it has found. *)
Theorem null_content_is_never_summarized :
  forall E,
    (forall w,
        fst (summarize_article_content E None w) = Ok None /\
        submitted (trace (snd (summarize_article_content E None w)))
        = submitted (trace w) /\
        length (logged ERROR (trace (snd (summarize_article_content E None w))))
        = S (length (logged ERROR (trace w)))) /\
    (forall w r,
        ids_unique (db w) ->
        In r (rows (db w)) ->
        without_summary r = true ->
        content r = None ->
        In r (rows (db (snd (process_existing_articles_without_summary E w)))) /\
        (exists pending,
            fst (get_articles_without_summary
                   (snd (process_existing_articles_without_summary E w)))
            = Ok pending /\
            In (id r, title r, content r, article_link r) pending) /\
        (exists processed total,
            fst (process_existing_articles_without_summary E w)
            = Ok (Processed processed total) /\
            processed < total)).
Proof.
  intros E. split.
  - intros w. unfold summarize_article_content. unfold_monad.
    destruct (create_session E) as [[]|e]; cbn [fst snd db trace];
      rewrite submitted_app, logged_app, length_app; cbn;
      rewrite app_nil_r; repeat split; lia.
  - intros w r Hids Hr Hp Hc.
    pose proof (null_content_unusable E r Hc) as Hu.
    assert (Hin : In r (filter (unusable E) (filter without_summary (rows (db w))))).
    { apply filter_In. split; [|exact Hu]. apply filter_In. now split. }
    split; [|split].
    + rewrite (reconcile_rows_run E w Hids). apply in_map_iff. exists r.
      split; [|exact Hr]. unfold reconciled. now rewrite Hu, andb_false_r.
    + eexists. split.
      * unfold get_articles_without_summary. unfold_monad. cbn [fst].
        rewrite (reconcile_rows_run E w Hids), pending_after_reconciled.
        reflexivity.
      * now apply (in_map (fun r => (id r, title r, content r, article_link r))).
    + destruct (reconcile_run E w) as (t & Hrun & _). rewrite Hrun. cbn [fst].
      eexists _, _. split; [reflexivity|].
      pose proof (filter_length (unusable E)
                    (filter without_summary (rows (db w)))) as Hlen.
      assert (Hpos : (0 < length (filter (unusable E)
                                    (filter without_summary (rows (db w)))))%nat).
      { destruct (filter (unusable E) (filter without_summary (rows (db w))));
          [contradiction|cbn; lia]. }
      lia.
Qed.

Lemma null_content_is_never_summarized_witness :
  In Scenario.row5
     (rows (db (snd (process_existing_articles_without_summary
                       Scenario.env_ok Scenario.table_with_null)))) /\
  exists processed total,
    fst (process_existing_articles_without_summary
           Scenario.env_ok Scenario.table_with_null)
    = Ok (Processed processed total) /\
    processed < total.
Proof.
  assert (Hi : ids_unique (db Scenario.table_with_null)).
  { unfold ids_unique. simpl. repeat constructor; simpl; intuition discriminate. }
  destruct (proj2 (null_content_is_never_summarized Scenario.env_ok)
              Scenario.table_with_null Scenario.row5 Hi)
    as (Hin & _ & Hcount); [cbn; tauto|reflexivity|reflexivity|].
  split; [exact Hin|exact Hcount].
Defined.

(** ** The Content Extractor Adapter *)

Lemma or_else_truthy s d : truthy d = true -> truthy (or_else s d) = true.
Proof. intros H. unfold or_else. now destruct (truthy s) eqn:Hs. Qed.

(** [extract_article_content] raises nothing and leaves the table alone;
    it downloads the given URL, once, and nothing else; it returns [None]
    exactly when the download or the parse raises; and the title and the
    content of the record it returns are never empty. *)
Theorem extract_article_content_total :
  forall E url w,
    exists r t,
      extract_article_content E url w = (Ok r, mkWorld (db w) (trace w ++ t)) /\
      downloaded t = [url] /\
      submitted t = [] /\
      (r = None <-> exists e, newspaper_article E url = Raise e) /\
      (forall d, r = Some d ->
                 truthy (d_title d) = true /\ truthy (d_content d) = true).
Proof.
  intros E url w. destruct (newspaper_article E url) as [page|e] eqn:Hp.
  - rewrite (extract_ok_run _ _ _ _ Hp). eexists _, _.
    split; [reflexivity|]. repeat split.
    + discriminate.
    + intros [e He]. discriminate.
    + injection H as <-. now apply or_else_truthy.
    + injection H as <-. now apply or_else_truthy.
  - rewrite (extract_fail_run _ _ _ _ Hp). eexists _, _.
    split; [reflexivity|]. repeat split; try discriminate.
    now exists e.
Qed.

(** ** The size of the prompt *)

Lemma make_prompt_len (body : string) :
  len (make_prompt body) = 327 + len body.
Proof.
  unfold make_prompt, len. rewrite !characters_app.
  match goal with
  | |- context [(characters ?h + (characters body + characters ?t))%nat] =>
      replace (characters h) with 314%nat by (vm_compute; reflexivity);
      replace (characters t) with 13%nat by (vm_compute; reflexivity)
  end.
  lia.
Qed.

(** Whatever the length of the content, the prompt handed to the runner
    has at most 327 + 8003 characters: the 327 characters of the fixed
    frame of [make_prompt], and a body of at most 8003 characters. *)
Theorem prompt_is_bounded :
  forall E text w,
    create_session E = Ok tt ->
    exists prompt,
      submitted (trace (snd (summarize_article_content E (Some text) w))) =
      (submitted (trace w) ++ [prompt])%list /\
      len (make_prompt "") = 327 /\
      len prompt <= 327 + 8003 /\
      (len text <= 8000 -> len prompt = 327 + len text).
Proof.
  intros E text w Hs. exists (make_prompt (prompt_content text)).
  split; [now apply summarize_some_submitted|].
  split; [vm_compute; reflexivity|].
  rewrite make_prompt_len.
  unfold prompt_content, max_content_length, slice_to.
  destruct (Z.gtb_spec (len text) 8000) as [Hgt|Hle].
  - split; [|lia]. unfold len. rewrite characters_app.
    pose proof (first_characters_le text (Z.to_nat 8000)).
    change (characters "...") with 3%nat. lia.
  - split; lia.
Qed.

Lemma prompt_is_bounded_witness :
  exists prompt,
    submitted (trace (snd (summarize_article_content Scenario.env_ok
                             (Some Scenario.accented_text) blank)))
    = [prompt] /\
    len prompt = 327 + 4001.
Proof.
  destruct (prompt_is_bounded Scenario.env_ok Scenario.accented_text blank eq_refl)
    as (prompt & Hsub & _ & _ & Hshort).
  exists prompt. split; [exact Hsub|].
  rewrite Hshort; [vm_compute; reflexivity|vm_compute; discriminate].
Defined.

(** ** The daily run *)

Import DailyNewsProcessor.

(** The outcome of [fetch_latest_article] and of [process_new_articles]
    depends on the table only, not on what has been logged before. *)
Lemma fetch_uniform E d :
  exists o d' t,
    forall w, db w = d ->
              fetch_latest_article E w = (Ok o, mkWorld d' (trace w ++ t)).
Proof.
  destruct (feedparser_parse E rss_url) as [feed|e] eqn:Hfeed.
  2:{ eexists _, _, _. intros w Hw.
      rewrite (fetch_feed_raises E w e Hfeed), Hw. reflexivity. }
  destruct (bozo feed) eqn:Hbozo.
  { eexists _, _, _. intros w Hw.
    rewrite (fetch_bozo E w feed Hfeed Hbozo), Hw. reflexivity. }
  destruct (entries feed) as [|latest older] eqn:Hentries.
  { eexists _, _, _. intros w Hw.
    rewrite (fetch_no_entries E w feed Hfeed Hbozo Hentries), Hw. reflexivity. }
  destruct (has_link d (get (e_link latest) "")) eqn:Hl.
  { eexists _, _, _. intros w Hw. rewrite <- Hw in Hl.
    rewrite (fetch_duplicate E w feed Hfeed Hbozo latest older Hentries Hl), Hw.
    reflexivity. }
  destruct (newspaper_article E (get (e_link latest) "")) as [page|e] eqn:Hp.
  - eexists _, _, _. intros w Hw. rewrite <- Hw in Hl.
    rewrite (fetch_new E w feed Hfeed Hbozo latest older Hentries Hl page Hp), Hw.
    reflexivity.
  - eexists _, _, _. intros w Hw. rewrite <- Hw in Hl.
    rewrite (fetch_extract_fails E w feed Hfeed Hbozo latest older Hentries Hl e Hp),
      Hw.
    reflexivity.
Qed.

Lemma process_new_uniform E d :
  exists r d' t,
    forall w, db w = d ->
              process_new_articles E w = (Ok r, mkWorld d' (trace w ++ t)).
Proof.
  destruct (fetch_uniform E d) as ([art|] & d1 & t1 & Hf).
  - destruct (summarize_logs_only E (Some (a_content art))) as (a & ts & Hs).
    destruct (truthy_opt a) eqn:Ha; eexists _, _, _; intros w Hw;
      rewrite (process_article _ _ _ _ _ _ (Hf w Hw) Hs), Ha; cbn [db trace];
      rewrite <- app_assoc; reflexivity.
  - eexists _, _, _. intros w Hw.
    rewrite (process_no_article _ _ _ (Hf w Hw)). cbn [db trace].
    rewrite <- app_assoc. reflexivity.
Qed.

Lemma reconcile_uniform E d :
  exists b d',
    forall w, db w = d ->
              exists t,
                process_existing_articles_without_summary E w
                = (Ok b, mkWorld d' (trace w ++ t)).
Proof.
  eexists _, _. intros w Hw. destruct (reconcile_run E w) as (t & Hrun & _).
  exists t. rewrite Hrun, Hw. reflexivity.
Qed.

Lemma daily_run_from E C w n d1 t1 b d2 :
  (forall w0, db w0 = db w ->
              process_new_articles E w0 = (Ok n, mkWorld d1 (trace w0 ++ t1))) ->
  (forall w0, db w0 = d1 ->
              exists t, process_existing_articles_without_summary E w0
                        = (Ok b, mkWorld d2 (trace w0 ++ t))) ->
  fst (process_new_articles E w) = Ok n /\
  fst (process_existing_articles_without_summary E
         (snd (process_new_articles E w))) = Ok b /\
  db (snd (process_existing_articles_without_summary E
             (snd (process_new_articles E w)))) = d2 /\
  exists tail,
    run_daily_process E C w =
    (Ok (DailySuccess n b (duration C)
           (generate_daily_summary C n b (duration C))),
     mkWorld d2 tail).
Proof.
  intros Hnew Hback.
  split; [now rewrite (Hnew w eq_refl)|].
  assert (H2 : fst (process_existing_articles_without_summary E
                      (snd (process_new_articles E w))) = Ok b /\
               db (snd (process_existing_articles_without_summary E
                          (snd (process_new_articles E w)))) = d2).
  { rewrite (Hnew w eq_refl). cbn [snd].
    destruct (Hback (mkWorld d1 (trace w ++ t1)) eq_refl) as (t2 & Ht2).
    rewrite Ht2. now split. }
  destruct H2 as [H2 Hd2]. split; [exact H2|]. split; [exact Hd2|].
  unfold run_daily_process. unfold_monad. cbn [db trace].
  rewrite Hnew by reflexivity. cbn [db trace].
  destruct n as [article summary|message|]; cbn [db trace];
    (match goal with
     | |- context [process_existing_articles_without_summary E ?w0] =>
         destruct (Hback w0 eq_refl) as (t3 & H3); rewrite H3
     end;
     cbn [db trace];
     destruct b as [processed total|pc err];
     [destruct (processed >? 0)|]; cbn [db trace];
     eexists; reflexivity).
Qed.

Lemma daily_run :
  forall E C w,
    exists n b w',
      fst (process_new_articles E w) = Ok n /\
      fst (process_existing_articles_without_summary E
             (snd (process_new_articles E w))) = Ok b /\
      run_daily_process E C w =
      (Ok (DailySuccess n b (duration C)
             (generate_daily_summary C n b (duration C))), w') /\
      db w' = db (snd (process_existing_articles_without_summary E
                         (snd (process_new_articles E w)))).
Proof.
  intros E C w.
  destruct (process_new_uniform E (db w)) as (n & d1 & t1 & Hnew).
  destruct (reconcile_uniform E d1) as (b & d2 & Hback).
  destruct (daily_run_from E C w n d1 t1 b d2 Hnew Hback)
    as (H1 & H2 & Hd2 & tail & Hrun).
  exists n, b, (mkWorld d2 tail). now rewrite Hd2.
Qed.

(** One daily run is a run of [process_new_articles] followed by a pass of
    [process_existing_articles_without_summary] on the table as the
    first left it; the pass takes place whatever the first reported, and
    the report of the day has the status [success] even when the ingestion
    reported an error: it carries both results unchanged. *)
Theorem run_daily_process_composes :
  forall E C w,
    exists n b w',
      fst (process_new_articles E w) = Ok n /\
      fst (process_existing_articles_without_summary E
             (snd (process_new_articles E w))) = Ok b /\
      run_daily_process E C w =
      (Ok (DailySuccess n b (duration C)
             (generate_daily_summary C n b (duration C))), w') /\
      daily_status (DailySuccess n b (duration C)
                      (generate_daily_summary C n b (duration C))) = "success" /\
      db w' = db (snd (process_existing_articles_without_summary E
                         (snd (process_new_articles E w)))).
Proof.
  intros E C w.
  destruct (process_new_uniform E (db w)) as (n & d1 & t1 & Hnew).
  destruct (reconcile_uniform E d1) as (b & d2 & Hback).
  destruct (daily_run_from E C w n d1 t1 b d2 Hnew Hback)
    as (H1 & H2 & Hd2 & tail & Hrun).
  exists n, b, (mkWorld d2 tail).
  split; [exact H1|]. split; [exact H2|]. split; [exact Hrun|].
  split; [reflexivity|]. now rewrite Hd2.
Qed.

Lemma process_error_inv E w m :
  fst (process_new_articles E w) = Ok (Error m) ->
  exists art,
    rows (db (snd (process_new_articles E w)))
    = (rows (db w) ++ [row_of E art])%list /\
    unusable E (row_of E art) = true.
Proof.
  destruct (fetch_cases E w) as [(t & Hf & _)|(art & t & Hf & _)].
  - rewrite (process_none_path _ _ _ Hf). discriminate.
  - destruct (summarize_logs_only E (Some (a_content art))) as (a & ts & Hs).
    rewrite (process_article _ _ _ _ _ _ Hf Hs).
    destruct (truthy_opt a) eqn:Ha; [discriminate|]. intros _.
    exists art. split; [reflexivity|].
    unfold unusable. cbn [row_of content].
    now rewrite (summary_for_logs _ _ _ _ Hs), Ha.
Qed.

(** When the ingestion of a daily run ends with the error "Failed to
    generate summary", the article it has just inserted is part of the
    backlog of the same run: the pass that follows counts it in
    [total_articles], asks the adapter again and, the adapter answering as
    before, does not resolve it, so [processed_count < total_articles]. *)
Theorem failed_summary_is_retried_in_the_same_run :
  forall E C w m,
    fst (process_new_articles E w) = Ok (Error m) ->
    exists p total s w',
      run_daily_process E C w =
      (Ok (DailySuccess (Error m) (Processed p total) (duration C) s), w') /\
      1 <= total /\ p < total.
Proof.
  intros E C w m Herr.
  destruct (daily_run E C w) as (n & b & w' & Hn & Hb & Hrun & _).
  rewrite Herr in Hn. injection Hn as <-.
  destruct (process_error_inv E w m Herr) as (art & Hrows & Hu).
  destruct (reconcile_run E (snd (process_new_articles E w))) as (t & Hback & _).
  rewrite Hback in Hb. cbn [fst] in Hb. injection Hb as <-.
  eexists _, _, _, _. split; [exact Hrun|].
  rewrite Hrows, filter_app. cbn [filter].
  change (without_summary (row_of E art)) with true. cbn iota.
  rewrite filter_app. cbn [filter]. rewrite Hu. cbn [negb].
  rewrite app_nil_r, length_app. cbn [length].
  pose proof (filter_length_le (fun r => negb (unusable E r))
                (filter without_summary (rows (db w)))).
  lia.
Qed.

Lemma failed_summary_is_retried_in_the_same_run_witness :
  exists p total s w',
    run_daily_process Scenario.env_no_summary
      (mkClock "2025-01-10 08:00:00" "2025-01-10 08:00:07" "0:00:07" "0:00:07"
               "2025-01-10 08:00:07")
      blank =
    (Ok (DailySuccess (Error "Failed to generate summary") (Processed p total)
           "0:00:07" s), w') /\
    1 <= total /\ p < total.
Proof.
  exact (failed_summary_is_retried_in_the_same_run Scenario.env_no_summary
           (mkClock "2025-01-10 08:00:00" "2025-01-10 08:00:07" "0:00:07"
                    "0:00:07" "2025-01-10 08:00:07")
           blank "Failed to generate summary" eq_refl).
Defined.

(** ** The readers of the table (enhanced_app.py) *)

Import QuantumNewsDB.

Lemma with_summary_not_pending r : with_summary r = negb (without_summary r).
Proof.
  unfold with_summary, without_summary. now destruct (ai_summary r).
Qed.

Lemma complete_and_pending (l : list Row) :
  (length (filter with_summary l) + length (filter without_summary l))%nat
  = length l.
Proof.
  induction l as [|r l IH]; [reflexivity|]. cbn [filter].
  rewrite with_summary_not_pending.
  destruct (without_summary r); cbn [negb length]; lia.
Qed.

Lemma max_created_at_from (l : list Row) :
  forall acc,
    fold_left later l (Some acc) = Some acc \/
    exists r, In r l /\ fold_left later l (Some acc) = Some (created_at r).
Proof.
  induction l as [|x l IH]; intros acc; cbn [fold_left]; [now left|].
  change (later (Some acc) x)
    with (if String.leb acc (created_at x) then Some (created_at x) else Some acc).
  destruct (String.leb acc (created_at x)).
  - right. destruct (IH (created_at x)) as [H|(r & Hr & H)].
    + exists x. split; [now left|exact H].
    + exists r. split; [now right|exact H].
  - destruct (IH acc) as [H|(r & Hr & H)]; [now left|].
    right. exists r. split; [now right|exact H].
Qed.

(** The figures of the dashboard agree with the backlog of the
    reconciler: [get_article_stats] leaves the world as it is, its
    [articles_without_summary] is the number of tuples that
    [get_articles_without_summary] returns, the two counts add up to
    [total_articles], and [last_updated] is NULL exactly on an empty table
    and otherwise the [created_at] of one of the rows. *)
Theorem stats_agree_with_backlog :
  forall w,
    exists st pending,
      get_article_stats w = (Ok st, w) /\
      get_articles_without_summary w = (Ok pending, w) /\
      articles_without_summary st = Z.of_nat (length pending) /\
      articles_with_summary st + articles_without_summary st = total_articles st /\
      0 <= articles_with_summary st /\ 0 <= articles_without_summary st /\
      (last_updated st = None <-> rows (db w) = []) /\
      (forall m, last_updated st = Some m ->
                 exists r, In r (rows (db w)) /\ created_at r = m).
Proof.
  intros w. eexists _, _. split; [reflexivity|]. split; [reflexivity|].
  cbn [articles_without_summary articles_with_summary total_articles last_updated].
  rewrite length_map.
  pose proof (complete_and_pending (rows (db w))) as Hsum.
  split; [lia|]. split; [lia|]. split; [lia|]. split; [lia|].
  unfold max_created_at. destruct (rows (db w)) as [|x l]; cbn [fold_left later].
  - split; [now split|discriminate].
  - destruct (max_created_at_from l (created_at x)) as [H|(r & Hr & H)];
      rewrite H.
    + split; [split; discriminate|]. intros m Hm. injection Hm as <-.
      exists x. split; [now left|reflexivity].
    + split; [split; discriminate|]. intros m Hm. injection Hm as <-.
      exists r. split; [now right|reflexivity].
Qed.

Lemma insert_desc_In r x (l : list Row) :
  In x (insert_desc r l) <-> x = r \/ In x l.
Proof.
  induction l as [|y l IH]; cbn [insert_desc In]; [intuition|].
  destruct (String.leb (created_at r) (created_at y)); cbn [In];
    rewrite ?IH; intuition.
Qed.

Lemma insert_desc_length r (l : list Row) :
  length (insert_desc r l) = S (length l).
Proof.
  induction l as [|y l IH]; cbn [insert_desc length]; [reflexivity|].
  destruct (String.leb (created_at r) (created_at y)); cbn [length];
    now rewrite ?IH.
Qed.

Lemma insert_desc_newest_first r (l : list Row) :
  newest_first (map created_at l) ->
  newest_first (map created_at (insert_desc r l)).
Proof.
  induction l as [|y l IH]; cbn [insert_desc map]; [intros _; exact I|].
  intros Hl. destruct (String.leb (created_at r) (created_at y)) eqn:Hry.
  - cbn [map]. specialize (IH (match l as l' return
                                       newest_first (map created_at (y :: l')) ->
                                       newest_first (map created_at l') with
                                 | [] => fun _ => I
                                 | _ :: _ => fun H => proj2 H
                                 end Hl)).
    destruct l as [|z l]; cbn [insert_desc map] in *.
    + now split.
    + destruct (String.leb (created_at r) (created_at z)); cbn [map] in *.
      * split; [exact (proj1 Hl)|exact IH].
      * split; [exact Hry|exact IH].
  - cbn [map newest_first]. split; [|exact Hl].
    destruct (String.leb_total (created_at r) (created_at y)) as [H|H];
      [congruence|exact H].
Qed.

Lemma order_by_from (l : list Row) :
  forall acc,
    newest_first (map created_at acc) ->
    newest_first (map created_at (fold_left (fun s r => insert_desc r s) l acc)) /\
    (forall x, In x (fold_left (fun s r => insert_desc r s) l acc)
               <-> In x l \/ In x acc) /\
    length (fold_left (fun s r => insert_desc r s) l acc)
    = (length l + length acc)%nat.
Proof.
  induction l as [|r l IH]; intros acc Hacc; cbn [fold_left].
  - split; [exact Hacc|]. split; [intros x; cbn [In]; tauto|reflexivity].
  - destruct (IH (insert_desc r acc) (insert_desc_newest_first r acc Hacc))
      as (Hs & Hin & Hlen).
    split; [exact Hs|]. split.
    + intros x. rewrite Hin, insert_desc_In. cbn [In]. intuition.
    + rewrite Hlen, insert_desc_length. cbn [length]. lia.
Qed.

Lemma newest_first_firstn (n : nat) :
  forall l, newest_first l -> newest_first (firstn n l).
Proof.
  induction n as [|n IH]; intros l Hl; [exact I|].
  destruct l as [|a [|b l]]; cbn [firstn]; try exact I.
  - destruct n; exact I.
  - specialize (IH (b :: l) (proj2 Hl)). destruct n as [|n]; [exact I|].
    cbn [firstn] in *. split; [exact (proj1 Hl)|exact IH].
Qed.

Lemma firstn_subset (n : nat) (l : list Row) x : In x (firstn n l) -> In x l.
Proof.
  revert l. induction n as [|n IH]; intros [|y l]; cbn [firstn In]; try tauto.
  intros [->|H]; [now left|right; now apply IH].
Qed.

Lemma sorted_complete_rows (l : list Row) :
  newest_first (map created_at (order_by_created_at_desc (filter with_summary l))) /\
  (forall x, In x (order_by_created_at_desc (filter with_summary l))
             <-> In x l /\ with_summary x = true) /\
  length (order_by_created_at_desc (filter with_summary l))
  = length (filter with_summary l).
Proof.
  unfold order_by_created_at_desc.
  destruct (order_by_from (filter with_summary l) [] I) as (Hs & Hin & Hlen).
  split; [exact Hs|]. split.
  - intros x. rewrite Hin, filter_In. cbn [In]. tauto.
  - rewrite Hlen. cbn [length]. lia.
Qed.

Lemma format_article_fields r :
  with_summary r = true ->
  truthy_opt (v_summary (format_article r)) = true /\
  truthy (v_author (format_article r)) = true.
Proof.
  unfold with_summary, format_article. cbn [v_summary v_author].
  destruct (ai_summary r) as [s|]; [|discriminate]. intros Hs.
  split; [exact Hs|].
  destruct (author r) as [a|]; cbn [truthy_opt get]; [|reflexivity].
  now destruct (truthy a) eqn:Ha.
Qed.

(** [get_all_articles] only reads.  Every article it returns comes from a
    row of the table that has a summary which is not empty, and its author
    is never empty ("Unknown Author" stands in for a missing one); the
    articles come newest first by [created_at]; there are at most [limit]
    of them when [limit] is not negative, and never more than there are
    summarized rows; and with a negative limit, or one that is large
    enough, every summarized row is returned. *)
Theorem get_all_articles_summarized_newest_first :
  forall limit w,
    exists views,
      get_all_articles limit w = (Ok views, w) /\
      (forall v, In v views ->
                 truthy_opt (v_summary v) = true /\
                 truthy (v_author v) = true /\
                 exists r, In r (rows (db w)) /\ with_summary r = true /\
                           v = format_article r) /\
      newest_first (map v_created_at views) /\
      (0 <= limit -> Z.of_nat (length views) <= limit) /\
      (length views <= length (filter with_summary (rows (db w))))%nat /\
      (limit < 0 \/ Z.of_nat (length (filter with_summary (rows (db w)))) <= limit ->
       forall r, In r (rows (db w)) -> with_summary r = true ->
                 In (format_article r) views).
Proof.
  intros limit w. eexists. split; [reflexivity|].
  destruct (sorted_complete_rows (rows (db w))) as (Hs & Hin & Hlen).
  set (sorted := order_by_created_at_desc (filter with_summary (rows (db w)))) in *.
  assert (Hsub : forall x, In x (limit_rows limit sorted) -> In x sorted).
  { intros x. unfold limit_rows. destruct (limit <? 0); [tauto|].
    apply firstn_subset. }
  split; [|split; [|split; [|split]]].
  - intros v Hv. apply in_map_iff in Hv as (r & <- & Hr).
    apply Hsub, Hin in Hr. destruct Hr as [Hr Hc].
    destruct (format_article_fields r Hc) as [H1 H2].
    split; [exact H1|]. split; [exact H2|]. now exists r.
  - rewrite map_map. cbn [format_article v_created_at].
    change (fun x : Row => created_at x) with created_at.
    unfold limit_rows. destruct (limit <? 0); [exact Hs|].
    rewrite <- firstn_map. now apply newest_first_firstn.
  - intros Hpos. rewrite length_map. unfold limit_rows.
    destruct (Z.ltb_spec limit 0); [lia|].
    pose proof (firstn_le_length (Z.to_nat limit) sorted). lia.
  - rewrite length_map, <- Hlen. unfold limit_rows.
    destruct (limit <? 0); [lia|]. rewrite length_firstn. lia.
  - intros Hlim r Hr Hc. apply in_map.
    assert (Hall : limit_rows limit sorted = sorted).
    { unfold limit_rows. destruct (Z.ltb_spec limit 0); [reflexivity|].
      apply firstn_all2. lia. }
    rewrite Hall. apply Hin. now split.
Qed.

Lemma get_all_articles_summarized_newest_first_witness :
  exists views,
    get_all_articles 20 Scenario.table = (Ok views, Scenario.table) /\
    Z.of_nat (length views) <= 20 /\
    In (format_article Scenario.row3) views.
Proof.
  destruct (get_all_articles_summarized_newest_first 20 Scenario.table)
    as (views & Hrun & _ & _ & Hlen & _ & Hall).
  exists views. split; [exact Hrun|]. split; [apply Hlen; lia|].
  apply Hall; [right; vm_compute; discriminate|cbn; tauto|reflexivity].
Defined.

(** ** Identifiers of the graph nodes (enhanced_app.py) *)

Import OntologyVisualizer.

Lemma string_app_assoc (a b c : string) : (a ++ b) ++ c = a ++ (b ++ c).
Proof. induction a as [|x a IH]; simpl; [reflexivity|now rewrite IH]. Qed.

Lemma replace_char_app old new (s1 s2 : string) :
  replace_char old new (s1 ++ s2)
  = replace_char old new s1 ++ replace_char old new s2.
Proof.
  induction s1 as [|c s1 IH]; simpl; [reflexivity|].
  destruct (Ascii.eqb c old); simpl; rewrite IH; [|reflexivity].
  now rewrite string_app_assoc.
Qed.

Lemma normalize_app (s1 s2 : string) :
  normalize_name_for_id (s1 ++ s2)
  = normalize_name_for_id s1 ++ normalize_name_for_id s2.
Proof. unfold normalize_name_for_id. now rewrite !replace_char_app. Qed.

Lemma normalize_cons (c : ascii) (s : string) :
  normalize_name_for_id (String c s)
  = normalize_name_for_id (String c "") ++ normalize_name_for_id s.
Proof. exact (normalize_app (String c "") s). Qed.

(** What becomes of one character. *)
Lemma normalize_one (c : ascii) :
  normalize_name_for_id (String c "") = "" \/
  normalize_name_for_id (String c "") = "_" \/
  (normalize_name_for_id (String c "") = String c "" /\ special_char c = false).
Proof.
  destruct c as [[] [] [] [] [] [] [] []]; vm_compute;
    first [left; reflexivity
          |right; left; reflexivity
          |right; right; split; reflexivity].
Qed.

Lemma chars_app (s1 s2 : string) :
  list_ascii_of_string (s1 ++ s2)
  = (list_ascii_of_string s1 ++ list_ascii_of_string s2)%list.
Proof. induction s1 as [|c s1 IH]; simpl; [reflexivity|now rewrite IH]. Qed.

(** One character does not become more than one. *)
Lemma normalize_one_len (c : ascii) :
  (characters (normalize_name_for_id (String c "")) <= characters (String c ""))%nat.
Proof.
  destruct c as [[] [] [] [] [] [] [] []]; vm_compute; repeat constructor.
Qed.

Lemma normalize_not_longer (name : string) :
  (characters (normalize_name_for_id name) <= characters name)%nat.
Proof.
  induction name as [|c name IH]; [cbn; lia|].
  rewrite normalize_cons, characters_app.
  change (String c name) with (String c "" ++ name).
  rewrite (characters_app (String c "") name).
  pose proof (normalize_one_len c). lia.
Qed.

(** The identifier made from a name holds none of the characters space,
    full stop, comma, parentheses and hyphen; normalizing an identifier
    again changes nothing; and the identifier is never longer than the
    name. *)
Theorem normalize_name_for_id_clean :
  forall name,
    (forall c, In c (list_ascii_of_string (normalize_name_for_id name)) ->
               special_char c = false) /\
    normalize_name_for_id (normalize_name_for_id name)
    = normalize_name_for_id name /\
    len (normalize_name_for_id name) <= len name.
Proof.
  intros name. split; [|split].
  - induction name as [|c name IH]; [intros c []|].
    rewrite normalize_cons.
    destruct (normalize_one c) as [H|[H|[H Hc]]]; rewrite H; cbn [String.append].
    + exact IH.
    + intros x [<-|Hx]; [reflexivity|now apply IH].
    + intros x [<-|Hx]; [exact Hc|now apply IH].
  - induction name as [|c name IH]; [reflexivity|].
    rewrite normalize_cons.
    destruct (normalize_one c) as [H|[H|[H Hc]]]; rewrite H; cbn [String.append].
    + exact IH.
    + rewrite normalize_cons. change (normalize_name_for_id "_") with "_".
      cbn [String.append]. now rewrite IH.
    + rewrite normalize_cons, H. cbn [String.append]. now rewrite IH.
  - unfold len. pose proof (normalize_not_longer name). lia.
Qed.

(** ** A daily run with a service that answers *)

Lemma process_new_rows E w :
  exists k,
    rows (db (snd (process_new_articles E w))) = (rows (db w) ++ k)%list /\
    (k = [] \/
     exists r, k = [r] /\ id r = next_rowid (db w) /\ content r <> None).
Proof.
  destruct (fetch_cases E w) as [(t & Hf & _)|(art & t & Hf & Hl & Hid & _)].
  - rewrite (process_none_path _ _ _ Hf). exists []. cbn [snd db].
    split; [now rewrite app_nil_r|now left].
  - destruct (summarize_logs_only E (Some (a_content art))) as (a & ts & Hs).
    rewrite (process_article _ _ _ _ _ _ Hf Hs).
    destruct (truthy_opt a); cbn [snd db rows updated].
    + rewrite map_app,
        (updated_fresh_rows E (a_id art) (get a "") (rows (db w)))
        by (rewrite Hid; apply next_rowid_fresh).
      eexists. split; [reflexivity|]. right. eexists. split; [reflexivity|].
      cbn [map row_of id]. rewrite Z.eqb_refl. cbn [set_summary id content].
      split; [exact Hid|discriminate].
    + eexists. split; [reflexivity|]. right. eexists. split; [reflexivity|].
      cbn [row_of id content]. split; [exact Hid|discriminate].
Qed.

Lemma process_new_keeps_ids E w :
  ids_unique (db w) -> ids_unique (db (snd (process_new_articles E w))).
Proof.
  unfold ids_unique. intros H.
  destruct (process_new_rows E w) as (k & -> & [->|(r & -> & Hid & _)]).
  - now rewrite app_nil_r.
  - rewrite map_app. cbn [map].
    apply NoDup_app; [assumption|repeat constructor; simpl; tauto|].
    intros x Hx [<-|[]]. rewrite Hid in Hx. now apply (next_rowid_fresh (db w)).
Qed.

(** When the summarization service gives a summary that is not empty for
    every content, a daily run over a table with a primary key whose
    pending rows all have a content leaves no backlog:
    [get_articles_without_summary] returns the empty list after the run,
    whether or not the run has ingested a new article. *)
Theorem daily_run_drains_the_backlog :
  forall E C w,
    ids_unique (db w) ->
    (forall r, In r (rows (db w)) -> without_summary r = true -> content r <> None) ->
    (forall c, truthy_opt (summary_for E (Some c)) = true) ->
    fst (get_articles_without_summary (snd (run_daily_process E C w))) = Ok [].
Proof.
  intros E C w Hids Hcontent Hservice.
  destruct (daily_run E C w) as (n & b & w' & _ & _ & Hrun & Hdb).
  rewrite Hrun. cbn [snd].
  unfold get_articles_without_summary. unfold_monad. cbn [fst]. rewrite Hdb.
  rewrite (reconcile_rows_run E _ (process_new_keeps_ids E w Hids)),
    pending_after_reconciled.
  destruct (process_new_rows E w) as (k & -> & Hk).
  assert (Hnone : forall l : list Row,
             (forall r, In r l -> without_summary r = true -> content r <> None) ->
             filter (unusable E) (filter without_summary l) = []).
  { induction l as [|r l IH]; intros Hl; [reflexivity|]. cbn [filter].
    destruct (without_summary r) eqn:Hp; cbn [filter].
    - assert (Hu : unusable E r = false).
      { unfold unusable. destruct (content r) as [c|] eqn:Hc.
        - now rewrite Hservice.
        - exfalso. apply (Hl r); [now left|exact Hp|exact Hc]. }
      rewrite Hu. apply IH. intros x Hx. apply Hl. now right.
    - apply IH. intros x Hx. apply Hl. now right. }
  rewrite Hnone; [reflexivity|].
  intros r Hr Hp. apply in_app_or in Hr as [Hr|Hr]; [now apply Hcontent|].
  destruct Hk as [->|(x & -> & _ & Hx)]; [contradiction|].
  destruct Hr as [<-|[]]. exact Hx.
Qed.

Lemma daily_run_drains_the_backlog_witness :
  fst (get_articles_without_summary
         (snd (run_daily_process Scenario.env_ok
                 (mkClock "2025-01-10 08:00:00" "2025-01-10 08:00:07" "0:00:07"
                          "0:00:07" "2025-01-10 08:00:07")
                 Scenario.table)))
  = Ok [].
Proof.
  apply daily_run_drains_the_backlog.
  - unfold ids_unique. simpl. repeat constructor; simpl; intuition discriminate.
  - intros r Hr _. cbn in Hr.
    destruct Hr as [<-|[<-|[<-|[<-|[]]]]]; discriminate.
  - intros c. unfold summary_for, summarizer_result, summarize_article_content.
    unfold_monad. cbn [create_session Scenario.env_ok lift].
    now destruct (len c >? max_content_length).
Defined.
